(** * The trial consumer of metaopt ([metaopt.core.worker.consumer])

    A shallow embedding of [Consumer.__init__], [Consumer.consume],
    [Consumer._consume] and [Consumer.launch_process], and the properties
    of the trial consumption pipeline proved about them.

    The consumer is effectful code: it creates and removes files, starts a
    child process, mutates the trial object it is handed and writes to the
    trial store.  It is embedded in a state monad over a [World] (file
    system, object heap, trace of the calls made to the outside) whose
    computations end in one of three ways: a value, a raised exception, or
    a call that never returns ([wait()] on a child that never exits).
    [log.error] is an event of the trace; [log.debug] changes nothing of the
    world and is left out. *)

From Stdlib Require Import ZArith String Ascii List.
From stdpp Require Import base option list gmap strings fin_maps functions.

Local Open Scope string_scope.
Local Open Scope Z_scope.

(** ** Python values and exceptions *)

(** The exceptions the consumer and the library calls it makes can raise.
    [OSError] carries its [errno]. *)
Inductive exn : Type :=
| RuntimeError (msg : string)
| KeyError (key : string)
| OSError (errno : Z)
| ValueError (msg : string)
| CollaboratorError (who : string) (msg : string).

Definition ENOENT : Z := 2.
Definition EACCES : Z := 13.
Definition EEXIST : Z := 17.
Definition ENOTDIR : Z := 20.

(** A scalar as found in a results record.  No arithmetic is ever done on
    a float here, so it is kept as its literal. *)
Inductive value : Type :=
| VNone
| VBool (b : bool)
| VInt (z : Z)
| VFloat (literal : string)
| VStr (s : string).

(** ** Data model *)

(** Modelled from the spec: [Trial.Result] (module [metaopt.core.worker.trial]
    is not part of the sources): a [{name, type, value}] tuple. *)
Record Result : Type := mkResult {
  res_name : value;
  res_type : value;
  res_value : value
}.

(** Modelled from the spec: the [Trial] class: identity, parameter
    assignments, mutable status, ordered sequence of results. *)
Record Trial : Type := mkTrial {
  id : string;
  params : list (string * value);
  status : string;
  results : list Result
}.

Definition set_status (s : string) (t : Trial) : Trial :=
  {| id := id t; params := params t; status := s; results := results t |}.

Definition set_results (rs : list Result) (t : Trial) : Trial :=
  {| id := id t; params := params t; status := status t; results := rs |}.

(** Modelled from the spec: the parameter space of an experiment; only its
    presence matters to the consumer. *)
Inductive Space : Type := mkSpace (dimensions : list string).

(** Modelled from the spec: the part of [Experiment] the consumer reads.
    [space] is [None] until the experiment has completed initialization. *)
Record Experiment : Type := mkExperiment {
  name : string;
  space : option Space;
  metadata : gmap string string
}.

(** A node of the file system. *)
Inductive node : Type :=
| Dir
| File (content : string).

(** A Python object reference: trial objects live in the heap and are
    passed around, and mutated, by reference. *)
Definition ref : Type := nat.

(** ** The calls that leave the consumer

    An event is a call together with what it answered. *)
Inductive event : Type :=
| EvMakedirs (path : string)
| EvMkdtemp (path : string)
| EvNamedTemporaryFile (path : string)
| EvRmtree (path : string)
| EvBuildTo (config : string) (trial : ref) (rendered : exn + list string)
| EvPopen (command : list string) (env : gmap string string)
          (raised : option exn)
| EvPoll (status : option Z)
| EvWait (status : option Z)
| EvParse (path : string) (parsed : exn + list (gmap string value))
| EvLogError (msg : string) (code : Z)
| EvPushCompletedTrial (trial : ref) (snapshot : Trial) (raised : option exn)
| EvDatabaseWrite (collection : string) (document : Trial)
                  (query : list (string * string)) (raised : option exn).

(** The two writes to the durable store. *)
Definition is_store_write (e : event) : bool :=
  match e with
  | EvPushCompletedTrial _ _ _ | EvDatabaseWrite _ _ _ _ => true
  | _ => false
  end.

(** ** The world *)

Record World : Type := mkWorld {
  fs : gmap string node;
  heap : ref → Trial;
  environ : gmap string string;
  trace : list event;
  entropy : nat
}.

Definition with_fs (f : gmap string node) (w : World) : World :=
  {| fs := f; heap := heap w; environ := environ w; trace := trace w;
     entropy := entropy w |}.

Definition with_heap (h : ref → Trial) (w : World) : World :=
  {| fs := fs w; heap := h; environ := environ w; trace := trace w;
     entropy := entropy w |}.

Definition emit (e : event) (w : World) : World :=
  {| fs := fs w; heap := heap w; environ := environ w;
     trace := (trace w ++ [e])%list; entropy := entropy w |}.

Definition tick (w : World) : World :=
  {| fs := fs w; heap := heap w; environ := environ w; trace := trace w;
     entropy := S (entropy w) |}.

(** The events of a run from [w] to [w']. *)
Definition new_events (w w' : World) : list event :=
  drop (length (trace w)) (trace w').

(** ** The monad *)

Inductive outcome (A : Type) : Type :=
| Ret (a : A)
| Raise (e : exn)
| Hang.
Arguments Ret {A} a.
Arguments Raise {A} e.
Arguments Hang {A}.

Definition M (A : Type) : Type := World → outcome A * World.

(** Sequencing is stdpp's monadic notation: [x ← m; k] and [m;; k]. *)
#[export] Instance M_ret : MRet M := λ A a w, (Ret a, w).

#[export] Instance M_bind : MBind M := λ A B k m w,
  match m w with
  | (Ret a, w') => k a w'
  | (Raise e, w') => (Raise e, w')
  | (Hang, w') => (Hang, w')
  end.

(** A primitive step on the world. *)
Definition act {A} (f : World → outcome A * World) : M A := f.

Definition raise {A} (e : exn) : M A := act (λ w, (Raise e, w)).

(** [try: m except exc: handler exc] *)
Definition try_except {A} (m : M A) (handler : exn → M A) : M A :=
  act (λ w, match m w with
            | (Raise e, w') => handler e w'
            | r => r
            end).

Definition call (e : event) : M unit := act (λ w, (Ret tt, emit e w)).

(** Code that touches nothing but may raise answers in [exn + A]. *)
#[export] Instance exn_ret : MRet (sum exn) := λ A a, inr a.

#[export] Instance exn_bind : MBind (sum exn) := λ A B k m,
  match m with
  | inl e => inl e
  | inr a => k a
  end.

Definition lift {A} (r : exn + A) : M A :=
  match r with
  | inl e => raise e
  | inr a => mret a
  end.

Definition raised_by {A} (r : exn + A) : option exn :=
  match r with
  | inl e => Some e
  | inr _ => None
  end.

(** [d[key]] on a dict. *)
Definition getitem {V} (d : gmap string V) (key : string) : exn + V :=
  match d !! key with
  | Some v => inr v
  | None => inl (KeyError key)
  end.

(** ** What the consumer does not own

    The collaborators of the consumer (space builder, results converter,
    experiment, database), the operating system and the child process are
    outside the sources.  Their behaviour is a parameter of the model, and
    every theorem holds for all of them. *)

(** The future of a child process, fixed by the outside: the status
    [poll()] sees right after the launch ([None]: still running), the
    status [wait()] gets when the child exits ([None]: it never exits), and
    what the child has done to the file system by the time its exit is
    observed. *)
Record Child : Type := mkChild {
  status_at_poll : option Z;
  status_at_exit : option Z;
  child_writes : gmap string node → gmap string node
}.

(** A [subprocess.Popen] object: the child it stands for, and the
    [returncode] attribute in which [poll()] and [wait()] cache the exit
    status. *)
Record Popen : Type := mkPopen {
  child : Child;
  returncode : option Z
}.

Record Externals : Type := mkExternals {
  (** [tempfile.gettempdir()] *)
  gettempdir : string;
  (** the random names [tempfile] draws, in the order it draws them *)
  candidate_name : nat → string;
  (** the [errno] the system answers when creating this path is refused *)
  refused : string → option Z;
  (** [sys.version_info[0] == 3] *)
  python3 : bool;
  (** [SpaceBuilder.build_to(config_path, trial)]: the rendered command
      line arguments, and the file system with the configuration written *)
  build_to : string → Trial → gmap string node →
             exn + (list string * gmap string node);
  (** [subprocess.Popen(command, env=env)]: raises when the program cannot
      be executed *)
  spawn : list string → gmap string string → gmap string node → exn + Child;
  (** [JSONConverter.parse] on the text of a file: the records, in order *)
  parse_text : string → exn + list (gmap string value);
  (** [Experiment.push_completed_trial(trial)]: what it makes of the trial *)
  experiment_push : Trial → exn + Trial;
  (** [Database().write(collection, document, query=query)] *)
  database_write : string → Trial → list (string * string) → exn + unit
}.

(** ** Paths *)

Fixpoint endswith_sep (p : string) : bool :=
  match p with
  | EmptyString => false
  | String c EmptyString => Ascii.eqb c "/"
  | String _ rest => endswith_sep rest
  end.

Definition with_sep (p : string) : string :=
  if String.eqb p "" || endswith_sep p then p else p ++ "/".

(** [os.path.join(a, b)] *)
Definition path_join (a b : string) : string :=
  if String.prefix "/" b then b else with_sep a ++ b.

(** [os.path.dirname(p)], [None] when [p] has no separator.  The
    directory of ["/x"] is the root, written [""] here. *)
Fixpoint dirname (p : string) : option string :=
  match p with
  | EmptyString => None
  | String c rest =>
      match dirname rest with
      | Some head => Some (String c head)
      | None => if Ascii.eqb c "/" then Some EmptyString else None
      end
  end.

(** [p] is [d] or lies below it. *)
Definition inside (d p : string) : bool :=
  String.eqb p d || String.prefix (with_sep d) p.

Section Consumer.

Context (X : Externals).

(** ** The file system *)

Definition exists_ (p : string) : M bool :=
  act (λ w,
    (Ret (match fs w !! p with Some _ => true | None => false end), w)).

Definition isdir (p : string) : M bool :=
  act (λ w, (Ret (match fs w !! p with Some Dir => true | _ => false end), w)).

(** Creating an entry [n] at [p]: the directory of [p] must be a directory,
    [p] must not exist, and the system must allow it.  The file system is
    keyed by paths as they are written: the model is of absolute,
    normalised paths, and resolves neither [..] nor links. *)
Definition create (p : string) (n : node) : M unit :=
  act (λ w,
    let parent :=
      match dirname p with
      | None => Some Dir
      | Some EmptyString => Some Dir
      | Some head => fs w !! head
      end in
    match parent with
    | None => (Raise (OSError ENOENT), w)
    | Some (File _) => (Raise (OSError ENOTDIR), w)
    | Some Dir =>
        match fs w !! p with
        | Some _ => (Raise (OSError EEXIST), w)
        | None =>
            match refused X p with
            | Some errno => (Raise (OSError errno), w)
            | None => (Ret tt, with_fs (<[p := n]> (fs w)) w)
            end
        end
    end).

(** [os.mkdir(p)] *)
Definition mkdir (p : string) : M unit := create p Dir.

Definition is_EEXIST (e : exn) : bool :=
  match e with
  | OSError errno => bool_decide (errno = EEXIST)
  | _ => false
  end.

(** [os.makedirs(name, exist_ok=exist_ok)]: the missing ancestors first
    (an ancestor that turns out to exist is not an error), then the
    directory itself; that it exists already is an error unless [exist_ok]
    is set and it is a directory.  An ancestor is shorter than the path, so
    the length of the path is fuel enough. *)
Fixpoint makedirs_from (fuel : nat) (name : string) (exist_ok : bool)
  : M unit :=
  match fuel, dirname name with
  | S fuel', Some (String c head') =>
      let head := String c head' in
      there ← exists_ head;
      if there : bool then mret tt
      else try_except (makedirs_from fuel' head exist_ok)
             (λ exc, if is_EEXIST exc then mret tt else raise exc)
  | _, _ => mret tt
  end;;
  try_except (mkdir name)
    (λ exc, dir ← isdir name;
            if negb exist_ok || negb dir then raise exc else mret tt).

Definition makedirs (name : string) (exist_ok : bool) : M unit :=
  call (EvMakedirs name);;
  makedirs_from (String.length name) name exist_ok.

(** [shutil.rmtree(d)] as [TemporaryDirectory.cleanup] uses it, when
    nothing stops the removal: [d] and everything below it are gone
    afterwards.  The cleanup that can fail is in [Cleanup], below. *)
Definition rmtree (d : string) : M unit :=
  call (EvRmtree d);;
  act (λ w,
    (Ret tt, with_fs (filter (λ entry, inside d entry.1 = false) (fs w)) w)).

(** ** [tempfile] *)

Definition TMP_MAX : nat := 100 * 100.

Definition next_name : M string :=
  act (λ w, (Ret (candidate_name X (entropy w)), tick w)).

(** The loop of [tempfile.mkdtemp] and [tempfile._mkstemp_inner]: draw a
    name, try to create the entry, draw again if the name is taken. *)
Fixpoint mktemp (tries : nat) (n : node) (prefix suffix dir : string)
  : M string :=
  match tries with
  | O => raise (OSError EEXIST)
  | S tries' =>
      name ← next_name;
      let file := path_join dir (prefix ++ name ++ suffix) in
      try_except (create file n;; mret file)
        (λ exc, if is_EEXIST exc
                then mktemp tries' n prefix suffix dir
                else raise exc)
  end.

(** [tempfile.mkdtemp(prefix=prefix, dir=dir)] *)
Definition mkdtemp (prefix dir : string) : M string :=
  d ← mktemp TMP_MAX Dir prefix "" dir;
  call (EvMkdtemp d);;
  mret d.

(** A [with] block: [__exit__] runs when the body returns and when it
    raises, and the value or the exception of the body goes on after it.  A
    body that never returns never reaches it. *)
Definition with_exit {A} (body : M A) (__exit__ : M unit) : M A :=
  act (λ w, match body w with
            | (Ret a, w') => (__exit__;; mret a) w'
            | (Raise exc, w') => (__exit__;; raise exc) w'
            | (Hang, w') => (Hang, w')
            end).

(** [with tempfile.TemporaryDirectory(prefix=prefix, dir=dir) as d: body d]
    and the value [body] leaves: [__init__] is [mkdtemp], [__exit__] is
    [cleanup()]. *)
Definition TemporaryDirectory {A} (prefix dir : string)
  (body : string → M A) : M A :=
  d ← mkdtemp prefix dir;
  with_exit (body d) (rmtree d).

(** [f = tempfile.NamedTemporaryFile(mode='w', prefix=prefix, suffix=suffix,
    dir=dir, delete=False); f.close()], and [f.name]: an empty file that
    stays when closed.  The name is [dir] joined with the name drawn, which
    is what [tempfile] answers for an absolute, normalised [dir]. *)
Definition NamedTemporaryFile (prefix suffix dir : string) : M string :=
  file ← mktemp TMP_MAX (File "") prefix suffix dir;
  call (EvNamedTemporaryFile file);;
  mret file.

(** ** [subprocess] *)

(** [subprocess.Popen(command, env=env)] *)
Definition subprocess_Popen (command : list string)
  (env : gmap string string) : M Popen :=
  act (λ w, match spawn X command env (fs w) with
            | inl exc => (Raise exc, emit (EvPopen command env (Some exc)) w)
            | inr c => (Ret {| child := c; returncode := None |},
                        emit (EvPopen command env None) w)
            end).

Definition reaped (rc : Z) (p : Popen) : Popen :=
  {| child := child p; returncode := Some rc |}.

(** [process.poll()]: the exit status if the child has exited, else
    [None]; the process object remembers a status it has seen. *)
Definition poll (p : Popen) : M (option Z * Popen) :=
  act (λ w, match returncode p with
            | Some rc => (Ret (Some rc, p), emit (EvPoll (Some rc)) w)
            | None =>
                match status_at_poll (child p) with
                | Some rc =>
                    (Ret (Some rc, reaped rc p),
                     emit (EvPoll (Some rc))
                       (with_fs (child_writes (child p) (fs w)) w))
                | None => (Ret (None, p), emit (EvPoll None) w)
                end
            end).

(** [process.wait()]: blocks until the child exits. *)
Definition wait (p : Popen) : M Z :=
  act (λ w, match returncode p with
            | Some rc => (Ret rc, emit (EvWait (Some rc)) w)
            | None =>
                match status_at_exit (child p) with
                | Some rc =>
                    (Ret rc,
                     emit (EvWait (Some rc))
                       (with_fs (child_writes (child p) (fs w)) w))
                | None => (Hang, emit (EvWait None) w)
                end
            end).

(** ** Objects *)

(** Reading the object a reference points to. *)
Definition deref (r : ref) : M Trial := act (λ w, (Ret (heap w r), w)).

(** [trial.status = s] and [trial.results = rs]: the object is changed in
    place, for every holder of the reference. *)
Definition assign (f : Trial → Trial) (r : ref) : M unit :=
  act (λ w, (Ret tt, with_heap (alter f r (heap w)) w)).

(** ** The collaborators *)

(** [self.template.build_to(config_path, trial)] *)
Definition template_build_to (config_path : string) (trial : ref)
  : M (list string) :=
  t ← deref trial;
  act (λ w, match build_to X config_path t (fs w) with
            | inl exc =>
                (Raise exc, emit (EvBuildTo config_path trial (inl exc)) w)
            | inr (cmd_args, fs') =>
                (Ret cmd_args,
                 emit (EvBuildTo config_path trial (inr cmd_args))
                   (with_fs fs' w))
            end).

Definition EISDIR : Z := 21.

(** [self.converter.parse(path)]: reads the file, then parses its text. *)
Definition converter_parse (path : string)
  : M (list (gmap string value)) :=
  act (λ w,
    let parsed :=
      match fs w !! path with
      | Some (File text) => parse_text X text
      | Some Dir => inl (OSError EISDIR)
      | None => inl (OSError ENOENT)
      end in
    lift parsed (emit (EvParse path parsed) w)).

(** [self.experiment.push_completed_trial(trial)] *)
Definition push_completed_trial (trial : ref) : M unit :=
  t ← deref trial;
  let pushed := experiment_push X t in
  call (EvPushCompletedTrial trial t (raised_by pushed));;
  t' ← lift pushed;
  assign (λ _, t') trial.

(** Modelled from the spec: [trial.to_dict()], the serialization of a
    trial: the document of a trial holds its fields. *)
Definition to_dict (trial : ref) : M Trial := deref trial.

(** [Database().write(collection, document, query=query)] *)
Definition Database_write (collection : string) (document : Trial)
  (query : list (string * string)) : M unit :=
  let written := database_write X collection document query in
  call (EvDatabaseWrite collection document query (raised_by written));;
  lift written.

(** ** The consumer *)

Record Consumer : Type := mkConsumer {
  self_experiment : Experiment;
  self_space : Space;
  self_script : string;
  self_tmp_dir : string
}.

Definition not_initialized_msg : string :=
  "Experiment object provided to Consumer has not yet completed initialization.".

(** [Consumer.__init__(self, experiment)].  [self.template] and
    [self.converter] are stateless objects: their methods are
    [template_build_to] and [converter_parse]. *)
Definition __init__ (experiment : Experiment) : M Consumer :=
  match space experiment with
  | None => raise (RuntimeError not_initialized_msg)
  | Some space_ =>
      script ← lift (getitem (metadata experiment) "user_script");
      let tmp_dir := path_join (gettempdir X) "metaopt" in
      (if python3 X
       then makedirs tmp_dir true
       else try_except (makedirs tmp_dir false)
              (λ exc, match exc with
                      | OSError errno =>
                          if bool_decide (errno ≠ 17) then raise exc
                          else mret tt
                      | _ => raise exc
                      end));;
      mret {| self_experiment := experiment; self_space := space_;
              self_script := script; self_tmp_dir := tmp_dir |}
  end.

(** [[Trial.Result(name=res['name'], type=res['type'], value=res['value'])
    for res in results]]: one result per record, in order; a record without
    one of the three keys raises [KeyError], and no list is built. *)
Fixpoint make_results (records : list (gmap string value))
  : exn + list Result :=
  match records with
  | [] => mret []
  | res :: records' =>
      n ← getitem res "name";
      t ← getitem res "type";
      v ← getitem res "value";
      rest ← make_results records';
      mret ({| res_name := n; res_type := t; res_value := v |} :: rest)
  end.

Definition launch_failed_msg : string :=
  "Failed to execute script to evaluate trial. Process returned with code %d !".

Definition went_wrong_msg : string :=
  "Something went wrong. Check logs. Process returned with code %d !".

Definition METAOPT_RESULTS_PATH : string := "METAOPT_RESULTS_PATH".

(** [Consumer.launch_process(self, results_filename, cmd_args)] *)
Definition launch_process (self : Consumer) (results_filename : string)
  (cmd_args : list string) : M (option Popen) :=
  env ← act (λ w, (Ret (environ w), w));
  let env : gmap string string :=
    <[METAOPT_RESULTS_PATH := results_filename]> env in
  let command := ([self_script self] ++ cmd_args)%list in
  process ← subprocess_Popen command env;
  '(returncode, process) ← poll process;
  match returncode with
  | Some rc =>
      if bool_decide (rc < 0)
      then call (EvLogError launch_failed_msg rc);; mret None
      else mret (Some process)
  | None => mret (Some process)
  end.

(** [Consumer._consume(self, trial, workdirname)]: [None], or the trial it
    was handed, with its results set. *)
Definition _consume (self : Consumer) (trial : ref) (workdirname : string)
  : M (option ref) :=
  config_file ← NamedTemporaryFile "trial_" ".conf" workdirname;
  results_file ← NamedTemporaryFile "results_" ".log" workdirname;
  cmd_args ← template_build_to config_file trial;
  script_process ← launch_process self results_file cmd_args;
  match script_process with
  | None => mret None
  | Some script_process =>
      returncode ← wait script_process;
      if bool_decide (returncode ≠ 0)
      then call (EvLogError went_wrong_msg returncode);; mret None
      else
        results ← converter_parse results_file;
        results ← lift (make_results results);
        assign (set_results results) trial;;
        mret (Some trial)
  end.

(** [Consumer.consume(self, trial)] *)
Definition consume (self : Consumer) (trial : ref) : M unit :=
  completed_trial ←
    TemporaryDirectory (name (self_experiment self) ++ "_")
      (self_tmp_dir self) (λ workdirname, _consume self trial workdirname);
  match completed_trial with
  | Some completed_trial => push_completed_trial completed_trial
  | None =>
      assign (set_status "new") trial;;
      document ← to_dict trial;
      t ← deref trial;
      Database_write "trials" document [("_id", id t)]
  end.

End Consumer.

(** ** The runs of the consumer

    What a run of [_consume] and of [consume] leaves behind: how it ended,
    the events it added, the heap at its end.  One constructor per path
    through the code; [env0] and [h] are the environment and the heap at
    the start. *)

Definition is_temp (dir prefix suffix file : string) : Prop :=
  ∃ nm, file = path_join dir (prefix ++ nm ++ suffix).

(** The events of [_consume] up to the launch. *)
Definition launch_events (self : Consumer) (trial : ref)
  (env0 : gmap string string) (cf rf : string) (args : list string)
  (raised : option exn) : list event :=
  [ EvNamedTemporaryFile cf; EvNamedTemporaryFile rf;
    EvBuildTo cf trial (inr args);
    EvPopen (self_script self :: args)
      (<[METAOPT_RESULTS_PATH := rf]> env0) raised ].

(** What [poll()] can have seen of a child that [wait()] finds exited with
    [rc]: nothing yet, or [rc] itself, which [launch_process] let through. *)
Definition polled_before (polled : option Z) (rc : Z) : Prop :=
  polled = None ∨ (polled = Some rc ∧ 0 ≤ rc).

Inductive _consume_path (self : Consumer) (trial : ref) (d : string)
  (env0 : gmap string string) (h : ref → Trial)
  : outcome (option ref) → list event → (ref → Trial) → Prop :=
| no_config_file exc :
    _consume_path self trial d env0 h (Raise exc) [] h
| no_results_file cf exc :
    is_temp d "trial_" ".conf" cf →
    _consume_path self trial d env0 h (Raise exc) [EvNamedTemporaryFile cf] h
| build_raised cf rf exc :
    is_temp d "trial_" ".conf" cf →
    is_temp d "results_" ".log" rf →
    _consume_path self trial d env0 h (Raise exc)
      [ EvNamedTemporaryFile cf; EvNamedTemporaryFile rf;
        EvBuildTo cf trial (inl exc) ] h
| popen_raised cf rf args exc :
    is_temp d "trial_" ".conf" cf →
    is_temp d "results_" ".log" rf →
    _consume_path self trial d env0 h (Raise exc)
      (launch_events self trial env0 cf rf args (Some exc)) h
| launch_failed cf rf args rc :
    is_temp d "trial_" ".conf" cf →
    is_temp d "results_" ".log" rf →
    rc < 0 →
    _consume_path self trial d env0 h (Ret None)
      (launch_events self trial env0 cf rf args None
       ++ [EvPoll (Some rc); EvLogError launch_failed_msg rc]) h
| never_exits cf rf args :
    is_temp d "trial_" ".conf" cf →
    is_temp d "results_" ".log" rf →
    _consume_path self trial d env0 h Hang
      (launch_events self trial env0 cf rf args None
       ++ [EvPoll None; EvWait None]) h
| exited_nonzero cf rf args polled rc :
    is_temp d "trial_" ".conf" cf →
    is_temp d "results_" ".log" rf →
    polled_before polled rc →
    rc ≠ 0 →
    _consume_path self trial d env0 h (Ret None)
      (launch_events self trial env0 cf rf args None
       ++ [EvPoll polled; EvWait (Some rc); EvLogError went_wrong_msg rc]) h
| parse_raised cf rf args polled exc :
    is_temp d "trial_" ".conf" cf →
    is_temp d "results_" ".log" rf →
    polled_before polled 0 →
    _consume_path self trial d env0 h (Raise exc)
      (launch_events self trial env0 cf rf args None
       ++ [EvPoll polled; EvWait (Some 0); EvParse rf (inl exc)]) h
| bad_record cf rf args polled records exc :
    is_temp d "trial_" ".conf" cf →
    is_temp d "results_" ".log" rf →
    polled_before polled 0 →
    make_results records = inl exc →
    _consume_path self trial d env0 h (Raise exc)
      (launch_events self trial env0 cf rf args None
       ++ [EvPoll polled; EvWait (Some 0); EvParse rf (inr records)]) h
| completed cf rf args polled records rs :
    is_temp d "trial_" ".conf" cf →
    is_temp d "results_" ".log" rf →
    polled_before polled 0 →
    make_results records = inr rs →
    _consume_path self trial d env0 h (Ret (Some trial))
      (launch_events self trial env0 cf rf args None
       ++ [EvPoll polled; EvWait (Some 0); EvParse rf (inr records)])
      (alter (set_results rs) trial h).

Definition outcome_of_raised (raised : option exn) : outcome unit :=
  match raised with
  | Some exc => Raise exc
  | None => Ret tt
  end.

(** The workspace of a consumption: a directory of the base directory,
    named after the experiment. *)
Definition is_workdir (self : Consumer) (d : string) : Prop :=
  is_temp (self_tmp_dir self) (name (self_experiment self) ++ "_") "" d.

Inductive consume_path (self : Consumer) (trial : ref)
  (env0 : gmap string string) (h : ref → Trial)
  : outcome unit → list event → (ref → Trial) → Prop :=
| no_workspace exc :
    consume_path self trial env0 h (Raise exc) [] h
| blocked d evs h1 :
    is_workdir self d →
    _consume_path self trial d env0 h Hang evs h1 →
    consume_path self trial env0 h Hang (EvMkdtemp d :: evs) h1
| escaped d exc evs h1 :
    is_workdir self d →
    _consume_path self trial d env0 h (Raise exc) evs h1 →
    consume_path self trial env0 h (Raise exc)
      (EvMkdtemp d :: evs ++ [EvRmtree d]) h1
| recycled d evs h1 raised :
    is_workdir self d →
    _consume_path self trial d env0 h (Ret None) evs h1 →
    consume_path self trial env0 h (outcome_of_raised raised)
      (EvMkdtemp d :: evs
       ++ [ EvRmtree d;
            EvDatabaseWrite "trials" (set_status "new" (h1 trial))
              [("_id", id (h1 trial))] raised ])
      (alter (set_status "new") trial h1)
| committed d evs h1 c pushed :
    is_workdir self d →
    _consume_path self trial d env0 h (Ret (Some c)) evs h1 →
    consume_path self trial env0 h (outcome_of_raised (raised_by pushed))
      (EvMkdtemp d :: evs
       ++ [EvRmtree d; EvPushCompletedTrial c (h1 c) (raised_by pushed)])
      (match pushed with inl _ => h1 | inr t' => <[c := t']> h1 end).

(** ** Properties of runs *)

Definition is_abs (p : string) : bool := String.prefix "/" p.

(** What a launch failure looks like in the events: [Popen] raised, or
    the liveness check right after the launch saw a negative status. *)
Definition launch_failure (e : event) : Prop :=
  match e with
  | EvPopen _ _ (Some _) => True
  | EvPoll (Some rc) => rc < 0
  | _ => False
  end.

(** What a failing consumption attempt looks like in the events: a launch
    failure, or a child that exited with a status other than 0. *)
Definition attempt_failed (e : event) : Prop :=
  match e with
  | EvWait (Some rc) => rc ≠ 0
  | _ => launch_failure e
  end.

(** The exit status of the child an event has observed. *)
Definition exit_status (e : event) : option Z :=
  match e with
  | EvPoll st | EvWait st => st
  | _ => None
  end.

(** A results record and the result made of it. *)
Definition result_of (res : gmap string value) (r : Result) : Prop :=
  res !! "name" = Some (res_name r) ∧
  res !! "type" = Some (res_type r) ∧
  res !! "value" = Some (res_value r).

(** "A launch failure does not propagate an exception out of [consume]: the
    trial is recycled and [wait()] is never called", as a property of how a
    run ended and of its events. *)
Definition launch_failures_are_recycled (r : outcome unit)
  (evs : list event) : Prop :=
  ∀ e, e ∈ evs → launch_failure e →
    (∀ exc, r ≠ Raise exc) ∧
    (∀ st, EvWait st ∉ evs) ∧
    ∃ document query raised,
      EvDatabaseWrite "trials" document query raised ∈ evs ∧
      status document = "new".

(** "On a failing attempt [_consume] returns the failure sentinel and
    leaves the trial unmutated", as a property of how a run of [_consume]
    ended, of its events and of the heap before and after. *)
Definition failed_attempts_return_sentinel (h h' : ref → Trial)
  (r : outcome (option ref)) (evs : list event) : Prop :=
  ∀ e, e ∈ evs → attempt_failed e → r = Ret None ∧ h' = h.

(** "The trial returned after an exit 0 with a well-formed results file has
    its status advanced and its results non-empty, one per record, in
    order", as a property of the heap before and after [_consume]. *)
Definition returned_trial_is_advanced (h h' : ref → Trial) (trial : ref)
  (r : outcome (option ref)) (evs : list event) : Prop :=
  ∀ t rf records,
    r = Ret (Some t) → EvParse rf (inr records) ∈ evs →
    status (h' t) ≠ status (h trial) ∧
    results (h' t) ≠ [] ∧
    Forall2 result_of records (results (h' t)).

(** ** Scenarios

    A world to run the consumer in: a script at [/bin/train], a trial
    [t1] with [x = 3], a converter that understands two texts.  The child
    is given by what [poll()] and [wait()] see of it and by what it writes
    to the results file. *)
Module Scenario.

Definition loss_text : string :=
  "[{'name': 'loss', 'type': 'float', 'value': 0.42}]".

Definition loss_record : gmap string value :=
  {[ "name" := VStr "loss"; "type" := VStr "float";
     "value" := VFloat "0.42" ]}.

Definition loss : Result :=
  {| res_name := VStr "loss"; res_type := VStr "float";
     res_value := VFloat "0.42" |}.

Definition parse (text : string) : exn + list (gmap string value) :=
  if String.eqb text loss_text then inr [loss_record]
  else if String.eqb text "[]" then inr []
  else inl (ValueError "No JSON object could be decoded").

Definition externals (at_poll at_exit : option Z) (output : option string)
  : Externals :=
  {| gettempdir := "/tmp";
     candidate_name := λ n, match n with
                            | O => "a1"
                            | S O => "b2"
                            | _ => "c3"
                            end;
     refused := λ _, None;
     python3 := true;
     build_to := λ config t files,
       inr (["--x"; "3"], <[config := File "x = 3"]> files);
     spawn := λ command env files,
       match command with
       | script :: _ =>
           match files !! script with
           | Some (File _) =>
               inr {| status_at_poll := at_poll;
                      status_at_exit := at_exit;
                      child_writes := λ files',
                        match output, env !! METAOPT_RESULTS_PATH with
                        | Some text, Some path =>
                            <[path := File text]> files'
                        | _, _ => files'
                        end |}
           | _ => inl (OSError ENOENT)
           end
       | [] => inl (ValueError "empty command")
       end;
     parse_text := parse;
     experiment_push := λ t, inr (set_status "completed" t);
     database_write := λ _ _ _, inr tt |}.

Definition t1 : Trial :=
  {| id := "t1"; params := [("x", VInt 3)]; status := "reserved";
     results := [] |}.

Definition world (script : string) : World :=
  {| fs := {[ "/tmp" := Dir; "/tmp/metaopt" := Dir;
              script := File "#!/usr/bin/env python" ]};
     heap := λ _, t1;
     environ := {[ "HOME" := "/root" ]};
     trace := [];
     entropy := 0 |}.

Definition experiment (sp : option Space) : Experiment :=
  {| name := "exp"; space := sp;
     metadata := {[ "user_script" := "/bin/train" ]} |}.

Definition consumer : Consumer :=
  {| self_experiment := experiment (Some (mkSpace ["x"]));
     self_space := mkSpace ["x"];
     self_script := "/bin/train";
     self_tmp_dir := "/tmp/metaopt" |}.

(** The script writes the loss and exits 0. *)
Definition succeeds : Externals := externals None (Some 0) (Some loss_text).

(** The script writes nothing and exits 1. *)
Definition exits_1 : Externals := externals None (Some 1) None.

(** The script is killed by a signal before the liveness check. *)
Definition killed : Externals := externals (Some (-11)) (Some (-11)) None.


(** The script exits 0 and has written an empty list of results. *)
Definition reports_nothing : Externals := externals None (Some 0) (Some "[]").

(** The script never exits. *)
Definition hangs : Externals := externals None None None.

(** A run of [consume] on [t1], with the script at [script] and the consumer
    looking for it at [/bin/train], and the events of the run. *)
Definition run (X : Externals) (script : string) : outcome unit * World :=
  consume X consumer 0%nat (world script).

Definition events (X : Externals) (script : string) : list event :=
  new_events (world script) (run X script).2.

(** The same for [_consume], in a workspace that exists. *)
Definition workdir : string := "/tmp/metaopt/exp_a1".

Definition world_with_workdir (script : string) : World :=
  with_fs (<[workdir := Dir]> (fs (world script))) (world script).

Definition attempt (X : Externals) (script : string)
  : outcome (option ref) * World :=
  _consume X consumer 0%nat workdir (world_with_workdir script).

Definition attempt_events (X : Externals) (script : string) : list event :=
  new_events (world_with_workdir script) (attempt X script).2.

Definition child_env (results_file : string) : gmap string string :=
  <[METAOPT_RESULTS_PATH := results_file]> {[ "HOME" := "/root" ]}.

End Scenario.

(** ** Further properties of runs *)

(** A record that carries the three keys a result is made of. *)
Definition has_result_keys (res : gmap string value) : Prop :=
  is_Some (res !! "name") ∧ is_Some (res !! "type") ∧
  is_Some (res !! "value").

Definition is_launch (e : event) : bool :=
  match e with
  | EvPopen _ _ _ => true
  | _ => false
  end.

Definition is_wait (e : event) : bool :=
  match e with
  | EvWait _ => true
  | _ => false
  end.

Definition is_parse (e : event) : bool :=
  match e with
  | EvParse _ _ => true
  | _ => false
  end.

(** The exception a store write raised, and the trial it was handed. *)
Definition write_raised (e : event) : option exn :=
  match e with
  | EvPushCompletedTrial _ _ raised | EvDatabaseWrite _ _ _ raised => raised
  | _ => None
  end.

Definition written (e : event) : option Trial :=
  match e with
  | EvPushCompletedTrial _ t _ | EvDatabaseWrite _ t _ _ => Some t
  | _ => None
  end.

(** [p] holds a path separator. *)
Fixpoint has_sep (p : string) : bool :=
  match p with
  | EmptyString => false
  | String c rest => Ascii.eqb c "/" || has_sep rest
  end.

(** "The workspace directory and the two files inside it are removed before
    [consume] returns or before the exception escapes [consume]", as a
    property of how a run ended, of its events and of the file system at
    its end. *)
Definition workspace_is_removed (r : outcome unit) (evs : list event)
  (files : gmap string node) : Prop :=
  r ≠ Hang →
  ∀ d, EvMkdtemp d ∈ evs →
    files !! d = None ∧
    ∀ f, EvNamedTemporaryFile f ∈ evs → files !! f = None.

(** ** A cleanup that can fail

    [rmtree] above is the cleanup of [TemporaryDirectory] when nothing stops
    the removal of the tree.  [TemporaryDirectory._rmtree] hands
    [shutil.rmtree] an [onerror] that gets around a [PermissionError]
    (it resets the permissions and tries again), passes over a
    [FileNotFoundError], and raises every other error again.  Here the
    cleanup is taken with that case: the consumer is the same, line by
    line, and only [__exit__] differs.  With nothing in the way of the
    removal, this is the model above. *)
Module Cleanup.
Section Model.

Context (X : Externals).

(** What stops the removal of the tree at a directory, if anything, given
    the file system at that time: the error [shutil.rmtree] ends with, and
    what is left of the file system. *)
Context (stuck : string → gmap string node →
                 option (exn * gmap string node)).

(** [TemporaryDirectory._rmtree(d)] *)
Definition rmtree (d : string) : M unit :=
  call (EvRmtree d);;
  act (λ w,
    match stuck d (fs w) with
    | Some (exc, rest) => (Raise exc, with_fs rest w)
    | None =>
        (Ret tt,
         with_fs (filter (λ entry, inside d entry.1 = false) (fs w)) w)
    end).

(** [with tempfile.TemporaryDirectory(prefix=prefix, dir=dir) as d: body d]:
    an exception of [__exit__] takes the place of what the body left. *)
Definition TemporaryDirectory {A} (prefix dir : string)
  (body : string → M A) : M A :=
  d ← mkdtemp X prefix dir;
  with_exit (body d) (rmtree d).

(** [Consumer.consume(self, trial)] *)
Definition consume (self : Consumer) (trial : ref) : M unit :=
  completed_trial ←
    TemporaryDirectory (name (self_experiment self) ++ "_")
      (self_tmp_dir self)
      (λ workdirname, _consume X self trial workdirname);
  match completed_trial with
  | Some completed_trial => push_completed_trial X completed_trial
  | None =>
      assign (set_status "new") trial;;
      document ← to_dict trial;
      t ← deref trial;
      Database_write X "trials" document [("_id", id t)]
  end.

End Model.
End Cleanup.

(** ** More scenarios *)
Module Cases.

(** The externals of [Scenario.succeeds], with another converter, space
    builder, experiment and database. *)
Definition variant
  (parse : string → exn + list (gmap string value))
  (render : exn + list string)
  (push : Trial → exn + Trial)
  (write : exn + unit) (py3 : bool) : Externals :=
  {| gettempdir := gettempdir Scenario.succeeds;
     candidate_name := candidate_name Scenario.succeeds;
     refused := refused Scenario.succeeds;
     python3 := py3;
     build_to := λ config t files,
       match render with
       | inl exc => inl exc
       | inr args => inr (args, <[config := File "x = 3"]> files)
       end;
     spawn := spawn Scenario.succeeds;
     parse_text := parse;
     experiment_push := push;
     database_write := λ _ _ _, write |}.

Definition nameless_record : gmap string value :=
  {[ "type" := VStr "float"; "value" := VFloat "0.42" ]}.

(** The converter finds a record without a name after a good one. *)
Definition forgets_name : Externals :=
  variant (λ _, inr [Scenario.loss_record; nameless_record])
    (inr ["--x"; "3"]) (λ t, inr (set_status "completed" t)) (inr tt) true.


(** The experiment cannot store the completed trial. *)
Definition cannot_push : Externals :=
  variant Scenario.parse (inr ["--x"; "3"])
    (λ _, inl (OSError 111)) (inr tt) true.

(** The script exits 1 and the database cannot be written. *)
Definition cannot_write : Externals :=
  {| gettempdir := gettempdir Scenario.exits_1;
     candidate_name := candidate_name Scenario.exits_1;
     refused := refused Scenario.exits_1;
     python3 := true;
     build_to := build_to Scenario.exits_1;
     spawn := spawn Scenario.exits_1;
     parse_text := parse_text Scenario.exits_1;
     experiment_push := experiment_push Scenario.exits_1;
     database_write := λ _ _ _, inl (OSError 111) |}.

(** The script has exited with status 3 by the time of the liveness
    check. *)
Definition exited_3_early : Externals :=
  Scenario.externals (Some 3) (Some 3) None.

(** Python 2. *)
Definition python2 : Externals :=
  variant Scenario.parse (inr ["--x"; "3"])
    (λ t, inr (set_status "completed" t)) (inr tt) false.

(** A world where the base directory of the consumer is a file, one where
    it is not there, and one where the system lets nobody create it. *)
Definition world_with_file_at_base : World :=
  with_fs (<["/tmp/metaopt" := File ""]> (fs (Scenario.world "/bin/train")))
    (Scenario.world "/bin/train").

Definition world_without_base : World :=
  with_fs (delete "/tmp/metaopt" (fs (Scenario.world "/bin/train")))
    (Scenario.world "/bin/train").

Definition read_only : Externals :=
  {| gettempdir := gettempdir Scenario.succeeds;
     candidate_name := candidate_name Scenario.succeeds;
     refused := λ _, Some EACCES;
     python3 := false;
     build_to := build_to Scenario.succeeds;
     spawn := spawn Scenario.succeeds;
     parse_text := parse_text Scenario.succeeds;
     experiment_push := experiment_push Scenario.succeeds;
     database_write := database_write Scenario.succeeds |}.

(** An experiment whose metadata name no script. *)
Definition scriptless : Experiment :=
  {| name := "exp"; space := Some (mkSpace ["x"]); metadata := ∅ |}.

Definition run (X : Externals) (w : World) : outcome unit * World :=
  consume X Scenario.consumer 0%nat w.

Definition events (X : Externals) (w : World) : list event :=
  new_events w (run X w).2.

(** A call of [launch_process] alone, in a workspace that exists. *)
Definition launch (X : Externals) : outcome (option Popen) * World :=
  launch_process X Scenario.consumer "/tmp/metaopt/exp_a1/results_b2.log"
    ["--x"; "3"] (Scenario.world_with_workdir "/bin/train").

Definition launch_events (X : Externals) : list event :=
  new_events (Scenario.world_with_workdir "/bin/train") (launch X).2.

(** A call of the constructor. *)
Definition init (X : Externals) (experiment : Experiment) (w : World)
  : outcome Consumer * World :=
  __init__ X experiment w.

(** The script removes its workspace, puts a file in its place and
    exits 1. *)
Definition replaces_workspace : Externals :=
  {| gettempdir := gettempdir Scenario.exits_1;
     candidate_name := candidate_name Scenario.exits_1;
     refused := refused Scenario.exits_1;
     python3 := true;
     build_to := build_to Scenario.exits_1;
     spawn := λ command env files,
       inr {| status_at_poll := None;
              status_at_exit := Some 1;
              child_writes := λ files',
                match env !! METAOPT_RESULTS_PATH ≫= dirname with
                | Some d =>
                    <[d := File "core"]>
                      (filter (λ entry, inside d entry.1 = false) files')
                | None => files'
                end |};
     parse_text := parse_text Scenario.exits_1;
     experiment_push := experiment_push Scenario.exits_1;
     database_write := database_write Scenario.exits_1 |}.

(** [shutil.rmtree] on a path that holds a file: [os.scandir] raises
    [NotADirectoryError], which is raised again; nothing is removed. *)
Definition not_a_directory (d : string) (files : gmap string node)
  : option (exn * gmap string node) :=
  match files !! d with
  | Some (File _) => Some (OSError ENOTDIR, files)
  | _ => None
  end.

(** A run of [consume] with the cleanup that can fail. *)
Definition cleanup_run (X : Externals) : outcome unit * World :=
  Cleanup.consume X not_a_directory Scenario.consumer 0%nat
    (Scenario.world "/bin/train").

Definition cleanup_events (X : Externals) : list event :=
  new_events (Scenario.world "/bin/train") (cleanup_run X).2.

End Cases.

(** ** Runs of the monad *)

Lemma bind_inv {A B} (m : M A) (k : A → M B) w r w' :
  (m ≫= k) w = (r, w') →
  (∃ a w1, m w = (Ret a, w1) ∧ k a w1 = (r, w')) ∨
  (∃ exc, m w = (Raise exc, w') ∧ r = Raise exc) ∨
  (m w = (Hang, w') ∧ r = Hang).
Proof.
  unfold mbind, M_bind. destruct (m w) as [[a | exc |] w1]; intros H.
  - left. eauto.
  - right; left. exists exc. by simplify_eq.
  - right; right. by simplify_eq.
Qed.

Lemma new_events_app w w' evs :
  trace w' = (trace w ++ evs)%list → new_events w w' = evs.
Proof. unfold new_events. intros ->. apply drop_app_length. Qed.

Lemma try_except_inv {A} (m : M A) (handler : exn → M A) w r w' :
  try_except m handler w = (r, w') →
  (∃ exc w1, m w = (Raise exc, w1) ∧ handler exc w1 = (r, w')) ∨
  (m w = (r, w') ∧ ∀ exc, r ≠ Raise exc).
Proof.
  unfold try_except, act. destruct (m w) as [[a | exc |] w1]; intros H.
  - right. by simplify_eq.
  - left. eauto.
  - right. by simplify_eq.
Qed.

Ltac run_bind H a w Hm :=
  apply bind_inv in H as [(a & w & Hm & H) | [(? & Hm & ?) | (Hm & ?)]];
  simplify_eq.

Section Runs.

Context (X : Externals).

(** *** [tempfile] *)

Lemma create_inv p n w r w' :
  create X p n w = (r, w') →
  trace w' = trace w ∧ heap w' = heap w ∧ environ w' = environ w ∧
  match r with
  | Ret _ => fs w !! p = None ∧ fs w' = <[p := n]> (fs w)
  | Raise _ => fs w' = fs w
  | Hang => False
  end.
Proof.
  unfold create, act. intros H.
  repeat case_match; simplify_eq; done.
Qed.

Lemma mktemp_inv tries n prefix suffix dir w r w' :
  mktemp X tries n prefix suffix dir w = (r, w') →
  trace w' = trace w ∧ heap w' = heap w ∧ environ w' = environ w ∧
  match r with
  | Ret file =>
      is_temp dir prefix suffix file ∧
      fs w !! file = None ∧ fs w' = <[file := n]> (fs w)
  | Raise _ => fs w' = fs w
  | Hang => False
  end.
Proof.
  revert w. induction tries as [| tries IH]; intros w H; simpl in H.
  - unfold raise, act in H. by simplify_eq.
  - run_bind H nm w1 Hnm; unfold next_name, act in Hnm; simplify_eq.
    apply try_except_inv in H as [(exc & w2 & Hc & H) | [Hc Hr]].
    + run_bind Hc u w3 Hcr; try (by unfold mret, M_ret in Hc).
      apply create_inv in Hcr as (Ht & Hh & He & Hfs); simpl in *.
      destruct (is_EEXIST _).
      * apply IH in H as (Ht' & Hh' & He' & Hr).
        rewrite Ht', Hh', He', Ht, Hh, He. repeat split; try done.
        destruct r; try done; [| congruence].
        destruct Hr as (? & ? & ?). repeat split; try done; congruence.
      * unfold raise, act in H. by simplify_eq.
    + run_bind Hc u w3 Hcr; try (by edestruct Hr).
      * apply create_inv in Hcr as (Ht & Hh & He & Hfs); simpl in *.
        unfold mret, M_ret in Hc. simplify_eq.
        destruct Hfs as [? ?]. repeat split; try done. by eexists.
      * by apply create_inv in Hcr as (Ht & Hh & He & Hfs).
Qed.

Lemma NamedTemporaryFile_inv prefix suffix dir w r w' :
  NamedTemporaryFile X prefix suffix dir w = (r, w') →
  heap w' = heap w ∧ environ w' = environ w ∧
  match r with
  | Ret file =>
      is_temp dir prefix suffix file ∧
      trace w' = (trace w ++ [EvNamedTemporaryFile file])%list
  | Raise _ => trace w' = trace w
  | Hang => False
  end.
Proof.
  unfold NamedTemporaryFile. intros H.
  run_bind H file w1 Hm; apply mktemp_inv in Hm as (Ht & Hh & He & Hr);
    [| done | done].
  unfold call, act, mbind, M_bind, mret, M_ret in H. simplify_eq.
  destruct Hr as (? & _). simpl. by rewrite Ht.
Qed.

Lemma mkdtemp_inv prefix dir w r w' :
  mkdtemp X prefix dir w = (r, w') →
  heap w' = heap w ∧ environ w' = environ w ∧
  match r with
  | Ret d => is_temp dir prefix "" d ∧
             trace w' = (trace w ++ [EvMkdtemp d])%list
  | Raise _ => trace w' = trace w
  | Hang => False
  end.
Proof.
  unfold mkdtemp. intros H.
  run_bind H d w1 Hm; apply mktemp_inv in Hm as (Ht & Hh & He & Hr);
    [| done | done].
  unfold call, act, mbind, M_bind, mret, M_ret in H. simplify_eq.
  destruct Hr as (? & _). simpl. by rewrite Ht.
Qed.

(** *** [launch_process] and [wait] *)

Lemma launch_process_inv self rf args w r w' :
  launch_process X self rf args w = (r, w') →
  let command := self_script self :: args in
  let env := <[METAOPT_RESULTS_PATH := rf]> (environ w) in
  heap w' = heap w ∧ environ w' = environ w ∧
  ((∃ exc, r = Raise exc ∧
      trace w' = (trace w ++ [EvPopen command env (Some exc)])%list) ∨
   (∃ rc, rc < 0 ∧ r = Ret None ∧
      trace w' = (trace w ++ [ EvPopen command env None; EvPoll (Some rc);
                               EvLogError launch_failed_msg rc ])%list) ∨
   (∃ p, r = Ret (Some p) ∧
      (∀ rc, returncode p = Some rc → 0 ≤ rc) ∧
      (returncode p = None → status_at_poll (child p) = None) ∧
      trace w' = (trace w ++ [ EvPopen command env None;
                               EvPoll (returncode p) ])%list)).
Proof.
  unfold launch_process, subprocess_Popen, poll, call, act.
  unfold mbind, M_bind, mret, M_ret. simpl. intros H.
  destruct (spawn X _ _ _) as [exc | c]; simpl in H.
  { simplify_eq. repeat split; try done. left. eauto. }
  destruct (status_at_poll c) as [rc |] eqn:Hpoll; simpl in H.
  - case_bool_decide; simplify_eq; simpl; repeat split; try done.
    + right; left. exists rc. rewrite <- !app_assoc. done.
    + right; right. eexists. split; [done |]. simpl.
      rewrite <- !app_assoc. repeat split; try done.
      intros ? [= <-]. lia.
  - simplify_eq. simpl. repeat split; try done.
    right; right. eexists. split; [done |]. simpl.
    rewrite <- !app_assoc. done.
Qed.

Lemma wait_inv p w r w' :
  wait p w = (r, w') →
  heap w' = heap w ∧ environ w' = environ w ∧
  ((∃ rc, r = Ret rc ∧ (∀ rc', returncode p = Some rc' → rc' = rc) ∧
      trace w' = (trace w ++ [EvWait (Some rc)])%list) ∨
   (r = Hang ∧ returncode p = None ∧
      trace w' = (trace w ++ [EvWait None])%list)).
Proof.
  unfold wait, act. intros H.
  destruct (returncode p) as [rc |] eqn:Hrc.
  - simplify_eq. simpl. repeat split; try done.
    left. exists rc. split; [done |]. split; [congruence | done].
  - destruct (status_at_exit (child p)) as [rc |]; simplify_eq; simpl;
      repeat split; try done.
    + left. exists rc. split; [done |]. split; [congruence | done].
    + by right.
Qed.

(** *** [_consume] *)

Lemma _consume_inv self trial d w r w' :
  _consume X self trial d w = (r, w') →
  environ w' = environ w ∧
  ∃ evs, trace w' = (trace w ++ evs)%list ∧
         _consume_path self trial d (environ w) (heap w) r evs (heap w').
Proof.
  unfold _consume. intros H.
  run_bind H cf w1 Hcf;
    apply NamedTemporaryFile_inv in Hcf as (Hh1 & He1 & Hr1); [| | done].
  2: { split; [done |]. exists []. rewrite app_nil_r, Hh1.
       split; [done | constructor]. }
  destruct Hr1 as [Hcf Ht1].
  run_bind H rf w2 Hrf;
    apply NamedTemporaryFile_inv in Hrf as (Hh2 & He2 & Hr2); [| | done].
  2: { split; [congruence |]. exists [EvNamedTemporaryFile cf].
       rewrite Hr2, Ht1, Hh2, Hh1. split; [done | by constructor]. }
  destruct Hr2 as [Hrf Ht2].
  run_bind H args w3 Hb; unfold template_build_to, deref, act in Hb;
    unfold mbind, M_bind in Hb; simpl in Hb;
    destruct (build_to X _ _ _) as [exc | [args' fs']]; simplify_eq.
  2: { simpl. split; [congruence |]. eexists. rewrite Ht2, Ht1, Hh2, Hh1.
       rewrite <- !app_assoc. split; [done |]. by constructor. }
  run_bind H proc w4 Hl;
    apply launch_process_inv in Hl as (Hh4 & He4 & Hl); simpl in *;
    destruct Hl as [(exc & ? & Ht4) | [(rc & ? & ? & Ht4) | (p & ? & Hp & Hq & Ht4)]];
    simplify_eq.
  3: { split; [congruence |]. eexists.
       rewrite Ht4, Ht2, Ht1, Hh4, Hh2, Hh1, He2, He1. simpl.
       rewrite <- !app_assoc. split; [done |]. by apply popen_raised. }
  - (* the launch failed *)
    unfold mret, M_ret in H. simplify_eq.
    split; [congruence |]. eexists.
    rewrite Ht4, Ht2, Ht1, Hh4, Hh2, Hh1, He2, He1. simpl.
    rewrite <- !app_assoc. split; [done |].
    by apply (launch_failed _ _ _ _ _ cf rf args rc).
  - (* a process handle *)
    assert (Hpolled : ∀ rc, (∀ rc', returncode p = Some rc' → rc' = rc) →
              polled_before (returncode p) rc).
    { intros rc Hc. destruct (returncode p) as [rc' |] eqn:E; [| by left].
      right. rewrite (Hc rc' eq_refl). split; [done |].
      rewrite <- (Hc rc' eq_refl). by apply Hp. }
    run_bind H rc w5 Hw;
      apply wait_inv in Hw as (Hh5 & He5 & Hw);
      destruct Hw as [(rc' & ? & Hc & Ht5) | (? & Hn & Ht5)]; simplify_eq.
    2: { split; [congruence |]. eexists.
         rewrite Ht5, Ht4, Ht2, Ht1, Hh5, Hh4, Hh2, Hh1, He2, He1, Hn. simpl.
         rewrite <- !app_assoc. split; [done |]. by apply never_exits. }
    case_bool_decide as Hz.
    + unfold call, act, mbind, M_bind, mret, M_ret in H. simplify_eq. simpl.
      split; [congruence |]. eexists.
      rewrite Ht5, Ht4, Ht2, Ht1, Hh5, Hh4, Hh2, Hh1, He2, He1. simpl.
      rewrite <- !app_assoc. split; [done |].
      apply (exited_nonzero _ _ _ _ _ cf rf args (returncode p) rc');
        auto.
    + assert (rc' = 0) as -> by (destruct (decide (rc' = 0)); done).
      unfold converter_parse, act, mbind, M_bind in H. simpl in H.
      set (parsed := match fs w5 !! rf with
                     | Some (File text) => parse_text X text
                     | Some Dir => inl (OSError EISDIR)
                     | None => inl (OSError ENOENT)
                     end) in *.
      destruct parsed as [exc | records]; simpl in H.
      { unfold raise, act in H. simplify_eq. simpl.
        split; [congruence |]. eexists.
        rewrite Ht5, Ht4, Ht2, Ht1, Hh5, Hh4, Hh2, Hh1, He2, He1. simpl.
        rewrite <- !app_assoc. split; [done |].
        apply (parse_raised _ _ _ _ _ cf rf args (returncode p) exc); auto. }
      unfold mret, M_ret in H.
      destruct (make_results records) as [exc | rs] eqn:Hrs; simpl in H.
      { unfold raise, act in H. simplify_eq. simpl.
        split; [congruence |]. eexists.
        rewrite Ht5, Ht4, Ht2, Ht1, Hh5, Hh4, Hh2, Hh1, He2, He1. simpl.
        rewrite <- !app_assoc. split; [done |].
        apply (bad_record _ _ _ _ _ cf rf args (returncode p) records exc);
          auto. }
      unfold assign, act, mret, M_ret in H. simplify_eq. simpl.
      split; [congruence |]. eexists.
      rewrite Ht5, Ht4, Ht2, Ht1, Hh5, Hh4, Hh2, Hh1, He2, He1. simpl.
      rewrite <- !app_assoc. split; [done |].
      apply (completed _ _ _ _ _ cf rf args (returncode p) records rs); auto.
Qed.

(** *** [consume] *)

Lemma rmtree_clean d (m : gmap string node) p :
  inside d p = true →
  filter (λ entry, inside d entry.1 = false) m !! p = None.
Proof.
  intros Hin. apply map_lookup_filter_None. right. intros x _. simpl.
  by rewrite Hin.
Qed.

Lemma TemporaryDirectory_inv self trial w r w' :
  TemporaryDirectory X (name (self_experiment self) ++ "_")
    (self_tmp_dir self) (λ workdirname, _consume X self trial workdirname) w
  = (r, w') →
  environ w' = environ w ∧
  ((∃ exc, r = Raise exc ∧ trace w' = trace w ∧ heap w' = heap w) ∨
   (∃ d evs,
      is_workdir self d ∧
      _consume_path self trial d (environ w) (heap w) r evs (heap w') ∧
      match r with
      | Hang => trace w' = (trace w ++ EvMkdtemp d :: evs)%list
      | _ => trace w' = (trace w ++ EvMkdtemp d :: evs ++ [EvRmtree d])%list
             ∧ ∀ p, inside d p = true → fs w' !! p = None
      end)).
Proof.
  unfold TemporaryDirectory. intros H.
  run_bind H d w1 Hmk; apply mkdtemp_inv in Hmk as (Hh1 & He1 & Ht1);
    [| | done].
  2: { split; [done |]. left. eauto. }
  destruct Ht1 as [Hd Ht1].
  unfold with_exit, act in H.
  destruct (_consume X self trial d w1) as [[c | exc |] w2] eqn:Hc;
    apply _consume_inv in Hc as (He2 & evs & Ht2 & Hpath);
    rewrite He1, Hh1 in Hpath;
    unfold rmtree, call, raise, act, mbind, M_bind, mret, M_ret in H;
    simplify_eq; simpl.
  all: split; [congruence |]; right; exists d, evs; do 2 (split; [done |]).
  all: rewrite ?Ht2, ?Ht1, <- ?app_assoc; simpl; try done.
  all: split; [done |]; apply rmtree_clean.
Qed.

Lemma consume_inv self trial w r w' :
  consume X self trial w = (r, w') →
  environ w' = environ w ∧
  ∃ evs, trace w' = (trace w ++ evs)%list ∧
         consume_path self trial (environ w) (heap w) r evs (heap w') ∧
         (r ≠ Hang → ∀ d p, head evs = Some (EvMkdtemp d) →
                     inside d p = true → fs w' !! p = None).
Proof.
  unfold consume. intros H.
  run_bind H c w1 Htd;
    apply TemporaryDirectory_inv in Htd as (He1 & Htd);
    destruct Htd as [(exc & ? & Ht1 & Hh1) | (d & evs & Hd & Hpath & Ht1)];
    simplify_eq.
  - (* the directory is gone; the trial is committed or recycled *)
    destruct Ht1 as [Ht1 Hclean]. destruct c as [c |].
    + unfold push_completed_trial, deref, call, assign, act in H.
      unfold mbind, M_bind in H. simpl in H.
      destruct (experiment_push X (heap w1 c)) as [exc | t'] eqn:Hpush;
        simpl in H; unfold raise, act in H; simplify_eq; simpl.
      all: split; [done |]; eexists; rewrite Ht1, <- ?app_assoc; simpl.
      all: rewrite <- ?app_assoc; simpl; split; [done |].
      * split; [| by intros _ ?? [= <-]; apply Hclean].
        apply (committed _ _ _ _ d evs (heap w1) c (inl exc) Hd Hpath).
      * split; [| by intros _ ?? [= <-]; apply Hclean].
        apply (committed _ _ _ _ d evs (heap w1) c (inr t') Hd Hpath).
    + unfold assign, to_dict, deref, Database_write, call, act in H.
      unfold mbind, M_bind in H. simpl in H.
      rewrite fn_lookup_alter in H. simpl in H.
      destruct (database_write X _ _ _) as [exc | []] eqn:Hwrite;
        simpl in H; unfold raise, act, mret, M_ret in H; simplify_eq; simpl.
      all: split; [done |]; eexists; rewrite Ht1, <- ?app_assoc; simpl.
      all: rewrite <- ?app_assoc; simpl; split; [done |].
      * split; [| by intros _ ?? [= <-]; apply Hclean].
        apply (recycled _ _ _ _ d evs (heap w1) (Some exc) Hd Hpath).
      * split; [| by intros _ ?? [= <-]; apply Hclean].
        apply (recycled _ _ _ _ d evs (heap w1) None Hd Hpath).
  - split; [done |]. exists []. rewrite app_nil_r, Hh1.
    split; [done |]. split; [constructor | done].
  - split; [done |]. eexists. destruct Ht1 as [Ht1 Hclean].
    rewrite Ht1. split; [done |].
    split; [by constructor | by intros _ ?? [= <-]; apply Hclean].
  - split; [done |]. eexists. rewrite Ht1. split; [done |].
    split; [by constructor | done].
Qed.

End Runs.

(** ** Paths and events *)

Lemma prefix_app a b : String.prefix a (a ++ b) = true.
Proof.
  induction a as [| c a IH]; simpl; [by destruct b |].
  by destruct (ascii_dec c c).
Qed.

Lemma inside_join d b : is_abs b = false → inside d (path_join d b) = true.
Proof.
  unfold is_abs, inside, path_join. intros ->.
  rewrite prefix_app. apply orb_true_r.
Qed.

Lemma inside_self d : inside d d = true.
Proof. unfold inside. by rewrite String.eqb_refl. Qed.

Lemma is_abs_join a b : is_abs a = true → is_abs (path_join a b) = true.
Proof.
  unfold path_join. destruct (String.prefix "/" b) eqn:Hb; [done |].
  unfold is_abs, with_sep. destruct a as [| c a]; [done |].
  assert (Hnil : ∀ s, String.prefix "" s = true) by (by intros []).
  assert (Hcons : ∀ x s t, String x s +:+ t = String x (s +:+ t)) by done.
  destruct (orb _ _); rewrite ?Hcons; cbn [String.prefix];
    destruct (ascii_dec "/" c); try done; intros _; apply Hnil.
Qed.

Lemma config_file_inside d cf : is_temp d "trial_" ".conf" cf → inside d cf = true.
Proof. intros [nm ->]. by apply inside_join. Qed.

Lemma results_file_inside d rf :
  is_temp d "results_" ".log" rf → inside d rf = true.
Proof. intros [nm ->]. by apply inside_join. Qed.

Lemma results_file_abs d rf :
  is_temp d "results_" ".log" rf → is_abs d = true → is_abs rf = true.
Proof. intros [nm ->]. apply is_abs_join. Qed.

(** Membership in a list of events that is written out. *)
Ltac in_events :=
  repeat match goal with
         | H : _ ∈ (_ ++ _)%list |- _ => apply elem_of_app in H as [H | H]
         | H : _ ∈ _ :: _ |- _ => apply elem_of_cons in H as [H | H]
         | H : _ ∈ [] |- _ => by apply elem_of_nil in H
         end;
  try discriminate.

Ltac is_event :=
  unfold launch_events;
  repeat first [ rewrite elem_of_app | rewrite elem_of_cons ];
  naive_solver.

Lemma make_results_spec records rs :
  make_results records = inr rs → Forall2 result_of records rs.
Proof.
  revert rs. induction records as [| res records IH]; intros rs; simpl.
  - intros [= <-]. constructor.
  - unfold getitem, mbind, exn_bind, mret, exn_ret.
    destruct (res !! "name") as [n |] eqn:Hn; [| done].
    destruct (res !! "type") as [t |] eqn:Ht; [| done].
    destruct (res !! "value") as [v |] eqn:Hv; [| done].
    destruct (make_results records) as [exc | rest]; [done |].
    intros [= <-]. constructor; [done | by apply IH].
Qed.

(** [os.makedirs] raises nothing but [OSError]. *)
Lemma create_raises X p n w exc w' :
  create X p n w = (Raise exc, w') → ∃ errno, exc = OSError errno.
Proof. unfold create, act. intros H. repeat case_match; simplify_eq; eauto. Qed.

Lemma mkdir_step_raises X path exist_ok w exc w' :
  try_except (mkdir X path)
    (λ exc, dir ← isdir path;
            if negb exist_ok || negb dir then raise exc else mret tt)
    w = (Raise exc, w') →
  ∃ errno, exc = OSError errno.
Proof.
  intros H. apply try_except_inv in H as [(exc' & w1 & Hc & H) | [Hc Hr]].
  - apply create_raises in Hc as [errno ->].
    unfold isdir, raise, act, mbind, M_bind, mret, M_ret in H.
    destruct (negb exist_ok || negb _); simplify_eq; eauto.
  - by edestruct Hr.
Qed.

Lemma makedirs_from_raises X fuel path exist_ok w exc w' :
  makedirs_from X fuel path exist_ok w = (Raise exc, w') →
  ∃ errno, exc = OSError errno.
Proof.
  revert path w exc w'.
  induction fuel as [| fuel IH]; intros path w exc w' H.
  - simpl in H. run_bind H u w1 Hh. by eapply mkdir_step_raises.
  - simpl in H. run_bind H u w1 Hh; try by eapply mkdir_step_raises.
    destruct (dirname path) as [[| c head] |]; try done.
    run_bind Hh there w2 He; try done. destruct there; [done |].
    apply try_except_inv in Hh as [(exc' & w3 & Hc & Hh) | [Hc Hr]].
    + apply IH in Hc as [errno ->].
      destruct (is_EEXIST _); [done |].
      unfold raise, act in Hh. simplify_eq. eauto.
    + by eapply IH.
Qed.

Lemma mkdir_step_returns X path exist_ok w w' :
  try_except (mkdir X path)
    (λ exc, dir ← isdir path;
            if negb exist_ok || negb dir then raise exc else mret tt)
    w ≠ (Hang, w').
Proof.
  intros H. apply try_except_inv in H as [(exc & w1 & Hc & H) | [Hc _]].
  - unfold isdir, raise, act, mbind, M_bind, mret, M_ret in H.
    by destruct (negb exist_ok || negb _).
  - unfold mkdir, create, act in Hc. by repeat case_match.
Qed.

Lemma makedirs_from_returns X fuel path exist_ok w w' :
  makedirs_from X fuel path exist_ok w ≠ (Hang, w').
Proof.
  revert path w w'.
  induction fuel as [| fuel IH]; intros path w w' H; simpl in H.
  - run_bind H u w1 Hh. by apply mkdir_step_returns in H.
  - run_bind H u w1 Hh; try by apply mkdir_step_returns in H.
    destruct (dirname path) as [[| c head] |]; try done.
    run_bind Hh there w2 He; try done. destruct there; [done |].
    apply try_except_inv in Hh as [(exc & w3 & Hc & Hh) | [Hc _]].
    + by destruct (is_EEXIST _).
    + by apply IH in Hc.
Qed.

Lemma makedirs_inv X path exist_ok w r w' :
  makedirs X path exist_ok w = (r, w') →
  match r with
  | Ret _ => True
  | Raise exc => ∃ errno, exc = OSError errno
  | Hang => False
  end.
Proof.
  unfold makedirs. intros H. run_bind H u w1 Hc.
  destruct r as [[] | exc |]; [done | |].
  - by eapply makedirs_from_raises.
  - by apply makedirs_from_returns in H.
Qed.

Lemma __init___inv X experiment sp w r w' :
  space experiment = Some sp →
  __init__ X experiment w = (r, w') →
  match r with
  | Ret self =>
      self_experiment self = experiment ∧ self_space self = sp ∧
      metadata experiment !! "user_script" = Some (self_script self) ∧
      self_tmp_dir self = path_join (gettempdir X) "metaopt"
  | Raise (RuntimeError _) => False
  | Raise _ => True
  | Hang => False
  end.
Proof.
  unfold __init__. intros -> H. unfold getitem in H.
  destruct (metadata experiment !! "user_script") as [script |] eqn:Hs.
  2: { run_bind H a w1 Hm; unfold lift, raise, act in Hm; by simplify_eq. }
  run_bind H a w1 Hm; unfold lift, mret, M_ret in Hm; simplify_eq.
  destruct (python3 X).
  - run_bind H u w2 Hm; apply makedirs_inv in Hm; try done.
    + unfold mret, M_ret in H. by simplify_eq.
    + by destruct Hm as [errno ->].
  - run_bind H u w2 Hm.
    + unfold mret, M_ret in H. by simplify_eq.
    + apply try_except_inv in Hm as [(exc & w3 & Hc & Hm) | [Hc Hr]].
      * apply makedirs_inv in Hc as [errno ->].
        case_bool_decide; unfold raise, act in Hm; by simplify_eq.
      * by edestruct Hr.
    + apply try_except_inv in Hm as [(exc & w3 & Hc & Hm) | [Hc Hr]].
      * apply makedirs_inv in Hc as [errno ->].
        case_bool_decide; unfold raise, act in Hm; by simplify_eq.
      * by apply makedirs_inv in Hc.
Qed.

(** Events of the paths: what is in them and what is not. *)
Ltac path_cases Hpath :=
  inversion Hpath; subst; unfold launch_events in *; in_events; simplify_eq.

(** ** The claims *)

(** C10.  Constructing a consumer for an experiment whose space is [None]
    raises [RuntimeError] and leaves the world as it was: no base directory
    is created and not even asked for.  For an experiment with a space, the
    construction never raises [RuntimeError]: it returns the consumer of this
    experiment, or raises what reading the metadata or creating the base
    directory raised. *)
Theorem init_requires_space X experiment w :
  match space experiment with
  | None =>
      __init__ X experiment w = (Raise (RuntimeError not_initialized_msg), w)
  | Some sp =>
      match (__init__ X experiment w).1 with
      | Ret self =>
          self_experiment self = experiment ∧ self_space self = sp ∧
          metadata experiment !! "user_script" = Some (self_script self) ∧
          self_tmp_dir self = path_join (gettempdir X) "metaopt"
      | Raise (RuntimeError _) => False
      | Raise _ => True
      | Hang => False
      end
  end.
Proof.
  destruct (space experiment) as [sp |] eqn:Hsp.
  - destruct (__init__ X experiment w) as [r w'] eqn:H.
    by apply (__init___inv _ _ sp) in H.
  - unfold __init__. by rewrite Hsp.
Qed.

(** C7.  Every launch of a consumption hands the child the environment of
    the consumer with [METAOPT_RESULTS_PATH] set to the results file
    allocated in the workspace of this consumption, every other variable as
    the consumer has it, and the command line [[script] + cmd_args] with the
    arguments the space builder rendered; the path of the results file is
    absolute when the base directory is. *)
Theorem child_environment_and_command X self trial w r w' :
  consume X self trial w = (r, w') →
  ∀ command env raised,
    EvPopen command env raised ∈ new_events w w' →
    ∃ d cf rf args,
      EvMkdtemp d ∈ new_events w w' ∧
      EvNamedTemporaryFile rf ∈ new_events w w' ∧
      is_temp d "results_" ".log" rf ∧
      EvBuildTo cf trial (inr args) ∈ new_events w w' ∧
      command = self_script self :: args ∧
      env = <[METAOPT_RESULTS_PATH := rf]> (environ w) ∧
      env !! METAOPT_RESULTS_PATH = Some rf ∧
      (∀ k, k ≠ METAOPT_RESULTS_PATH → env !! k = environ w !! k) ∧
      (is_abs (self_tmp_dir self) = true → is_abs rf = true).
Proof.
  intros H command env raised Hin.
  apply consume_inv in H as (_ & evs & Ht & Hpath & _).
  rewrite (new_events_app _ _ _ Ht) in *.
  assert (Hgoal : ∀ d evs1 r1 h1 tail,
    is_workdir self d →
    _consume_path self trial d (environ w) (heap w) r1 evs1 h1 →
    EvPopen command env raised ∈ evs1 →
    ∃ d' cf rf args,
      EvMkdtemp d' ∈ EvMkdtemp d :: evs1 ++ tail ∧
      EvNamedTemporaryFile rf ∈ EvMkdtemp d :: evs1 ++ tail ∧
      is_temp d' "results_" ".log" rf ∧
      EvBuildTo cf trial (inr args) ∈ EvMkdtemp d :: evs1 ++ tail ∧
      command = self_script self :: args ∧
      env = <[METAOPT_RESULTS_PATH := rf]> (environ w) ∧
      env !! METAOPT_RESULTS_PATH = Some rf ∧
      (∀ k, k ≠ METAOPT_RESULTS_PATH → env !! k = environ w !! k) ∧
      (is_abs (self_tmp_dir self) = true → is_abs rf = true)).
  { clear. intros d evs1 r1 h1 tail Hd Hp Hin.
    path_cases Hp.
    all: exists d, cf, rf, args.
    all: split; [is_event |]; split; [is_event |]; split; [done |].
    all: split; [is_event |]; split; [done |]; split; [done |].
    all: split; [apply lookup_insert_eq |].
    all: split; [by intros k Hk; apply lookup_insert_ne |].
    all: intros Habs; eapply results_file_abs; [done |].
    all: destruct Hd as [nm ->]; by apply is_abs_join. }
  destruct Hpath as [exc | d evs1 h1 Hd Hp | d exc evs1 h1 Hd Hp
                    | d evs1 h1 raised' Hd Hp | d evs1 h1 c pushed Hd Hp].
  - in_events.
  - apply elem_of_cons in Hin as [? | Hin]; [done |].
    rewrite <- (app_nil_r evs1). by eapply Hgoal.
  - apply elem_of_cons in Hin as [? | Hin]; [done |].
    apply elem_of_app in Hin as [Hin | Hin]; [| in_events].
    by eapply Hgoal.
  - apply elem_of_cons in Hin as [? | Hin]; [done |].
    apply elem_of_app in Hin as [Hin | Hin]; [| in_events].
    by eapply Hgoal.
  - apply elem_of_cons in Hin as [? | Hin]; [done |].
    apply elem_of_app in Hin as [Hin | Hin]; [| in_events].
    by eapply Hgoal.
Qed.

Lemma _consume_path_events self trial d env0 h r evs h1 :
  _consume_path self trial d env0 h r evs h1 →
  (∀ d', EvMkdtemp d' ∉ evs) ∧
  (∀ f, EvNamedTemporaryFile f ∈ evs → inside d f = true) ∧
  (∀ e, e ∈ evs → is_store_write e = false).
Proof.
  intros Hp. split; [| split].
  - intros d' Hin. path_cases Hp.
  - intros f Hin.
    path_cases Hp;
      first [ by apply config_file_inside | by apply results_file_inside ].
  - intros e Hin. path_cases Hp; done.
Qed.

(** When nothing stops the removal: when [consume] returns, and when an
    exception leaves it, the workspace directory it created and everything
    below it are gone from the file system, the config file and the results
    file among them. *)
Lemma consume_removes_workspace X self trial w r w' :
  consume X self trial w = (r, w') →
  r ≠ Hang →
  ∀ d, EvMkdtemp d ∈ new_events w w' →
    EvRmtree d ∈ new_events w w' ∧
    fs w' !! d = None ∧
    (∀ p, inside d p = true → fs w' !! p = None) ∧
    (∀ f, EvNamedTemporaryFile f ∈ new_events w w' →
          inside d f = true ∧ fs w' !! f = None).
Proof.
  intros H Hr d Hin.
  apply consume_inv in H as (_ & evs & Ht & Hpath & Hclean).
  rewrite (new_events_app _ _ _ Ht) in *.
  specialize (Hclean Hr).
  assert (Hgoal : ∀ d0 evs1 r1 h1 tail,
    _consume_path self trial d0 (environ w) (heap w) r1 evs1 h1 →
    evs = EvMkdtemp d0 :: evs1 ++ EvRmtree d0 :: tail →
    (∀ e, e ∈ tail → is_store_write e = true) →
    EvRmtree d ∈ evs ∧ fs w' !! d = None ∧
    (∀ p, inside d p = true → fs w' !! p = None) ∧
    (∀ f, EvNamedTemporaryFile f ∈ evs →
          inside d f = true ∧ fs w' !! f = None)).
  { intros d0 evs1 r1 h1 tail Hp -> Htail.
    apply _consume_path_events in Hp as (Hmk & Hfiles & _).
    assert (d = d0) as ->.
    { apply elem_of_cons in Hin as [[= ->] | Hin]; [done |].
      apply elem_of_app in Hin as [Hin | Hin]; [by apply Hmk in Hin |].
      apply elem_of_cons in Hin as [? | Hin]; [done |].
      by apply Htail in Hin. }
    split; [is_event |].
    split; [by eapply Hclean, inside_self |].
    split; [by intros p; eapply Hclean |].
    intros f Hf.
    assert (inside d0 f = true) as Hinside.
    { apply elem_of_cons in Hf as [? | Hf]; [done |].
      apply elem_of_app in Hf as [Hf | Hf]; [by apply Hfiles |].
      apply elem_of_cons in Hf as [? | Hf]; [done |].
      by apply Htail in Hf. }
    split; [done | by eapply Hclean]. }
  destruct Hpath as [exc | d0 evs1 h1 Hd Hp | d0 exc evs1 h1 Hd Hp
                    | d0 evs1 h1 raised' Hd Hp | d0 evs1 h1 c pushed Hd Hp].
  - in_events.
  - done.
  - eapply (Hgoal d0 evs1 _ _ []); [done | done |].
    clear. intros e He. in_events.
  - eapply (Hgoal d0 evs1 _ _ [_]); [done | done |].
    clear. intros e He. in_events. by subst.
  - eapply (Hgoal d0 evs1 _ _ [_]); [done | done |].
    clear. intros e He. in_events. by subst.
Qed.

Lemma bind_run {A B} (m : M A) (k : A → M B) w :
  (m ≫= k) w
  = match m w with
    | (Ret a, w1) => k a w1
    | (Raise exc, w1) => (Raise exc, w1)
    | (Hang, w1) => (Hang, w1)
    end.
Proof. unfold mbind, M_bind. by destruct (m w) as [[] ?]. Qed.

(** The block with the cleanup that can fail goes as the block above goes,
    unless something stops the removal: then the error of the cleanup
    leaves the block, whatever the body had left. *)
Lemma TemporaryDirectory_with_cleanup {A} X stuck prefix dir
    (body : string → M A) w r w' :
  Cleanup.TemporaryDirectory X stuck prefix dir body w = (r, w') →
  TemporaryDirectory X prefix dir body w = (r, w') ∨
  ∃ d w1 left w2 exc rest,
    mkdtemp X prefix dir w = (Ret d, w1) ∧
    body d w1 = (left, w2) ∧ left ≠ Hang ∧
    stuck d (fs w2) = Some (exc, rest) ∧
    r = Raise exc ∧
    w' = with_fs rest (emit (EvRmtree d) w2).
Proof.
  unfold Cleanup.TemporaryDirectory, TemporaryDirectory.
  rewrite !bind_run.
  destruct (mkdtemp X prefix dir w) as [[d | exc |] w1] eqn:Hmk;
    [| by left ..].
  unfold with_exit, act.
  destruct (body d w1) as [left_ w2] eqn:Hbody.
  unfold Cleanup.rmtree, rmtree, call, act, raise.
  destruct left_ as [a | exc |]; [| | by left].
  all: rewrite !bind_run; simpl.
  all: destruct (stuck d (fs w2)) as [[exc' rest] |] eqn:Hstuck;
    [| by left].
  all: intros [= <- <-]; right; eexists d, w1, _, w2, exc', rest.
  all: by rewrite Hstuck.
Qed.

Lemma consume_with_cleanup X stuck self trial w r w' :
  Cleanup.consume X stuck self trial w = (r, w') →
  consume X self trial w = (r, w') ∨
  ∃ d w1 left w2 exc rest,
    mkdtemp X (name (self_experiment self) ++ "_") (self_tmp_dir self) w
      = (Ret d, w1) ∧
    _consume X self trial d w1 = (left, w2) ∧ left ≠ Hang ∧
    stuck d (fs w2) = Some (exc, rest) ∧
    r = Raise exc ∧
    w' = with_fs rest (emit (EvRmtree d) w2).
Proof.
  unfold Cleanup.consume, consume. rewrite !bind_run.
  destruct (Cleanup.TemporaryDirectory _ _ _ _ _ w) as [c w1] eqn:Htd.
  apply TemporaryDirectory_with_cleanup in Htd as [-> | Hstuck]; [by left |].
  destruct Hstuck as (d & w0 & left_ & w2 & exc & rest & ? & ? & ? & ? & -> & ->).
  intros [= <- <-]. right. by exists d, w0, left_, w2, exc, rest.
Qed.

Lemma consume_when_nothing_stuck X self trial :
  Cleanup.consume X (λ _ _, None) self trial = consume X self trial.
Proof. reflexivity. Qed.

(** C3, as the code has it.  When [consume] returns, and when an exception
    leaves it, the cleanup of the [with] block has been called on the
    workspace.  Either it removed the tree: the workspace directory and
    everything below it are gone from the file system, the config file and
    the results file among them.  Or something stopped the removal: then
    the error of the cleanup leaves [consume] in place of what the attempt
    had left, the file system is as the cleanup left it, and the trial is
    neither committed nor recycled. *)
Theorem consume_cleanup_outcomes X stuck self trial w r w' :
  Cleanup.consume X stuck self trial w = (r, w') →
  r ≠ Hang →
  ∀ d, EvMkdtemp d ∈ new_events w w' →
    EvRmtree d ∈ new_events w w' ∧
    ((fs w' !! d = None ∧
      (∀ p, inside d p = true → fs w' !! p = None) ∧
      (∀ f, EvNamedTemporaryFile f ∈ new_events w w' → fs w' !! f = None))
     ∨
     (∃ files exc rest,
        stuck d files = Some (exc, rest) ∧
        r = Raise exc ∧ fs w' = rest ∧
        status (heap w' trial) = status (heap w trial) ∧
        ∀ e, e ∈ new_events w w' → is_store_write e = false)).
Proof.
  intros H Hr d Hin.
  apply consume_with_cleanup in H as [H | H].
  - (* nothing stopped the removal *)
    destruct (consume_removes_workspace _ _ _ _ _ _ H Hr d Hin)
      as (Hrm & Hd & Hbelow & Hfiles).
    split; [done |]. left. split; [done |]. split; [done |].
    intros f Hf. by apply Hfiles.
  - destruct H as (d0 & w1 & left_ & w2 & exc & rest
                   & Hmk & Hc & Hleft & Hstuck & -> & ->).
    apply mkdtemp_inv in Hmk as (Hh1 & He1 & _ & Ht1).
    apply _consume_inv in Hc as (_ & evs & Ht2 & Hp).
    rewrite (new_events_app _ _ (EvMkdtemp d0 :: evs ++ [EvRmtree d0])) in *
      by (simpl; rewrite Ht2, Ht1; by simplify_list_eq).
    pose proof (_consume_path_events _ _ _ _ _ _ _ _ Hp) as (Hnomk & _ & Hno).
    assert (d = d0) as ->.
    { apply elem_of_cons in Hin as [[= ->] | Hin]; [done |].
      apply elem_of_app in Hin as [Hin | Hin]; [by apply Hnomk in Hin |].
      in_events. }
    clear Hin. split; [is_event |]. right. exists (fs w2), exc, rest.
    split; [done |]. split; [done |]. split; [done |]. simpl. split.
    + rewrite <- Hh1. inversion Hp; subst; try done.
      by rewrite fn_lookup_alter.
    + intros e He. apply elem_of_cons in He as [-> | He]; [done |].
      apply elem_of_app in He as [He | He]; [by apply Hno |].
      in_events. by subst.
Qed.

(** C4.  Once the child has exited, with a status that [poll()] or [wait()]
    has seen, [_consume] calls the results parser if and only if the status
    is 0, and then on the results file of this attempt; on any other status
    it logs the status and returns [None]. *)
Theorem _consume_parses_iff_exit_zero X self trial d w r w' :
  _consume X self trial d w = (r, w') →
  ∀ e rc, e ∈ new_events w w' → exit_status e = Some rc →
    ((∃ path parsed, EvParse path parsed ∈ new_events w w') ↔ rc = 0) ∧
    (rc ≠ 0 →
       r = Ret None ∧ ∃ msg, EvLogError msg rc ∈ new_events w w') ∧
    (∀ path parsed,
       EvParse path parsed ∈ new_events w w' →
       is_temp d "results_" ".log" path ∧
       EvNamedTemporaryFile path ∈ new_events w w').
Proof.
  intros H e rc Hin Hrc.
  apply _consume_inv in H as (_ & evs & Ht & Hp).
  rewrite (new_events_app _ _ _ Ht) in *. clear Ht.
  assert (Hpolled : ∀ polled rc', polled_before polled rc' →
            exit_status (EvPoll polled) = Some rc → rc = rc').
  { intros polled rc' [-> | [-> _]]; simpl; congruence. }
  inversion Hp; subst; unfold launch_events in *; in_events; subst;
    simpl in Hrc; try discriminate;
    try (match goal with
         | Hb : polled_before ?p ?c |- _ => apply (Hpolled _ _ Hb) in Hrc
         end);
    simplify_eq.
  all: split; [| split].
  all: try (intros path parsed Hparse; in_events; simplify_eq;
            (split; [done | is_event])).
  all: try (split; [by intros _ | ]; intros _; eexists _, _; is_event).
  all: try (split; [| lia]; intros (path & parsed & Hparse); in_events).
  all: try (intros _; split; [done |]; eexists; is_event).
  all: try done.
Qed.

Lemma make_results_returns records :
  Forall has_result_keys records → ∃ rs, make_results records = inr rs.
Proof.
  induction 1 as [| res records ([n Hn] & [t Ht] & [v Hv]) _ [rs IH]].
  - by exists [].
  - simpl. unfold getitem, mbind, exn_bind, mret, exn_ret.
    rewrite Hn, Ht, Hv, IH. by eexists.
Qed.

(** C9, as the code has it.  When the child has exited 0 and the parser
    answers records that each carry [name], [type] and [value], [_consume]
    returns the trial object it was handed, changed in place: its results
    are one [Result] per record of the results file, in the order of the
    file, so none when the file has no record; its status, its identity and
    its parameters are as they were, and no other object is touched. *)
Theorem _consume_sets_results X self trial d w r w' :
  _consume X self trial d w = (r, w') →
  EvWait (Some 0) ∈ new_events w w' →
  (∀ path parsed, EvParse path parsed ∈ new_events w w' →
     ∃ records, parsed = inr records ∧ Forall has_result_keys records) →
  r = Ret (Some trial) ∧
  status (heap w' trial) = status (heap w trial) ∧
  id (heap w' trial) = id (heap w trial) ∧
  params (heap w' trial) = params (heap w trial) ∧
  (∀ t', t' ≠ trial → heap w' t' = heap w t') ∧
  ∃ rf records,
    EvParse rf (inr records) ∈ new_events w w' ∧
    is_temp d "results_" ".log" rf ∧
    Forall2 result_of records (results (heap w' trial)).
Proof.
  intros H Hexit Hwell.
  apply _consume_inv in H as (_ & evs & Ht & Hp).
  rewrite (new_events_app _ _ _ Ht) in *. clear Ht.
  inversion Hp; subst; unfold launch_events in *.
  all: try (by in_events; simplify_eq).
  - (* the parser raised *)
    destruct (Hwell rf (inl exc)) as (records & ? & _); [is_event | done].
  - (* a record lacks a key *)
    destruct (Hwell rf (inr records)) as (records' & [= <-] & Hkeys);
      [is_event |].
    apply make_results_returns in Hkeys as [rs Hrs]. congruence.
  - rewrite !fn_lookup_alter. simpl.
    repeat split; try done.
    + intros t' Ht'. by rewrite fn_lookup_alter_ne.
    + exists rf, records. split; [is_event |]. split; [done |].
      by apply make_results_spec.
Qed.

Lemma filter_no_store_write evs :
  (∀ e, e ∈ evs → is_store_write e = false) →
  List.filter is_store_write evs = [].
Proof.
  induction evs as [| e evs IH]; intros Hno; [done |]. simpl.
  rewrite (Hno e) by apply list_elem_of_here.
  apply IH. intros e' He'. by apply Hno, list_elem_of_further.
Qed.

Lemma filter_workspace_events d evs tail :
  (∀ e, e ∈ evs → is_store_write e = false) →
  List.filter is_store_write (EvMkdtemp d :: evs ++ EvRmtree d :: tail)
  = List.filter is_store_write tail.
Proof.
  intros Hno. simpl. rewrite List.filter_app. simpl.
  by rewrite filter_no_store_write.
Qed.


(** C2.  A call of [consume] that returns has made exactly one write to the
    store: [push_completed_trial] with the trial and its results set, or the
    write of the trial with status ['new'], keyed by its id; and the write
    succeeded. *)
Theorem consume_one_store_write X self trial w w' :
  consume X self trial w = (Ret tt, w') →
  ∃ ev, List.filter is_store_write (new_events w w') = [ev] ∧
    ((∃ rs rf records,
        EvParse rf (inr records) ∈ new_events w w' ∧
        Forall2 result_of records rs ∧
        ev = EvPushCompletedTrial trial (set_results rs (heap w trial)) None)
     ∨ ev = EvDatabaseWrite "trials" (set_status "new" (heap w trial))
              [("_id", id (heap w trial))] None).
Proof.
  intros H.
  apply consume_inv in H as (_ & evs & Ht & Hpath & _).
  rewrite (new_events_app _ _ _ Ht) in *. clear Ht.
  inversion Hpath as [| | | d evs1 h1 raised' Hd Hp Hr
                      | d evs1 h1 c pushed Hd Hp Hr]; subst.
  - (* recycled *)
    destruct raised'; [done |].
    pose proof (_consume_path_events _ _ _ _ _ _ _ _ Hp) as (_ & _ & Hno).
    eexists. rewrite filter_workspace_events by done. simpl.
    split; [done |]. right.
    assert (h1 = heap w) as -> by (by inversion Hp).
    done.
  - (* committed *)
    destruct pushed as [| t']; [done |].
    pose proof (_consume_path_events _ _ _ _ _ _ _ _ Hp) as (_ & _ & Hno).
    eexists. rewrite filter_workspace_events by done. simpl.
    split; [done |]. left.
    inversion Hp; subst. rewrite fn_lookup_alter.
    eexists _, _, _. split; [| split; [| done]].
    + unfold launch_events. is_event.
    + by apply make_results_spec.
Qed.


Ltac run_scenario := vm_compute; try reflexivity; try (intros; discriminate).

Ltac find_event :=
  vm_compute; repeat first [ apply list_elem_of_here
                           | apply list_elem_of_further ].

Lemma child_environment_and_command_witness :
  ∃ d cf rf args,
    EvMkdtemp d ∈ Scenario.events Scenario.succeeds "/bin/train" ∧
    EvNamedTemporaryFile rf ∈ Scenario.events Scenario.succeeds "/bin/train" ∧
    is_temp d "results_" ".log" rf ∧
    EvBuildTo cf 0%nat (inr args)
      ∈ Scenario.events Scenario.succeeds "/bin/train" ∧
    ["/bin/train"; "--x"; "3"] = "/bin/train" :: args ∧
    Scenario.child_env "/tmp/metaopt/exp_a1/results_c3.log"
      = <[METAOPT_RESULTS_PATH := rf]> {[ "HOME" := "/root" ]} ∧
    Scenario.child_env "/tmp/metaopt/exp_a1/results_c3.log"
      !! METAOPT_RESULTS_PATH = Some rf ∧
    (∀ k, k ≠ METAOPT_RESULTS_PATH →
       Scenario.child_env "/tmp/metaopt/exp_a1/results_c3.log" !! k
       = ({[ "HOME" := "/root" ]} : gmap string string) !! k) ∧
    (is_abs "/tmp/metaopt" = true → is_abs rf = true).
Proof.
  apply (child_environment_and_command Scenario.succeeds Scenario.consumer
           0%nat (Scenario.world "/bin/train") _ _ (surjective_pairing _)
           ["/bin/train"; "--x"; "3"]
           (Scenario.child_env "/tmp/metaopt/exp_a1/results_c3.log") None).
  find_event.
Defined.

Lemma consume_cleanup_outcomes_witness :
  EvRmtree Scenario.workdir
    ∈ Cases.cleanup_events Cases.replaces_workspace ∧
  ((fs (Cases.cleanup_run Cases.replaces_workspace).2 !! Scenario.workdir
      = None ∧
    (∀ p, inside Scenario.workdir p = true →
          fs (Cases.cleanup_run Cases.replaces_workspace).2 !! p = None) ∧
    (∀ f, EvNamedTemporaryFile f
            ∈ Cases.cleanup_events Cases.replaces_workspace →
          fs (Cases.cleanup_run Cases.replaces_workspace).2 !! f = None))
   ∨
   (∃ files exc rest,
      Cases.not_a_directory Scenario.workdir files = Some (exc, rest) ∧
      (Cases.cleanup_run Cases.replaces_workspace).1 = Raise exc ∧
      fs (Cases.cleanup_run Cases.replaces_workspace).2 = rest ∧
      status (heap (Cases.cleanup_run Cases.replaces_workspace).2 0%nat)
        = status (heap (Scenario.world "/bin/train") 0%nat) ∧
      ∀ e, e ∈ Cases.cleanup_events Cases.replaces_workspace →
           is_store_write e = false)).
Proof.
  apply (consume_cleanup_outcomes Cases.replaces_workspace
           Cases.not_a_directory Scenario.consumer 0%nat
           (Scenario.world "/bin/train") _ _ (surjective_pairing _)).
  - by vm_compute.
  - find_event.
Defined.

(** C3 as stated fails: a script that puts a file where its workspace was
    and exits 1.  The cleanup of the [with] block raises
    [NotADirectoryError]; the error leaves [consume], and the file at the
    path of the workspace stays. *)
Lemma stuck_cleanup_leaves_workspace :
  ¬ workspace_is_removed
      (Cases.cleanup_run Cases.replaces_workspace).1
      (Cases.cleanup_events Cases.replaces_workspace)
      (fs (Cases.cleanup_run Cases.replaces_workspace).2).
Proof.
  intros Hclaim.
  destruct (Hclaim ltac:(by vm_compute) Scenario.workdir) as [Hd _];
    [find_event |].
  by vm_compute in Hd.
Qed.

Lemma _consume_parses_iff_exit_zero_witness :
  ((∃ path parsed,
      EvParse path parsed
        ∈ Scenario.attempt_events Scenario.exits_1 "/bin/train")
   ↔ 1 = 0) ∧
  (1 ≠ 0 →
     (Scenario.attempt Scenario.exits_1 "/bin/train").1 = Ret None ∧
     ∃ msg, EvLogError msg 1
              ∈ Scenario.attempt_events Scenario.exits_1 "/bin/train") ∧
  (∀ path parsed,
     EvParse path parsed
       ∈ Scenario.attempt_events Scenario.exits_1 "/bin/train" →
     is_temp Scenario.workdir "results_" ".log" path ∧
     EvNamedTemporaryFile path
       ∈ Scenario.attempt_events Scenario.exits_1 "/bin/train").
Proof.
  apply (_consume_parses_iff_exit_zero Scenario.exits_1 Scenario.consumer
           0%nat Scenario.workdir (Scenario.world_with_workdir "/bin/train")
           _ _ (surjective_pairing _) (EvWait (Some 1)) 1).
  - find_event.
  - reflexivity.
Defined.

(** C8 fails on the code.  The script is not where the consumer looks for
    it: the attempt fails at the launch, and [_consume] returns no
    sentinel: what [Popen] raises leaves it.  The trial is as it was. *)
Theorem failed_launch_returns_no_sentinel :
  (Scenario.attempt Scenario.succeeds "/bin/other").1
    = Raise (OSError ENOENT) ∧
  Scenario.attempt_events Scenario.succeeds "/bin/other"
    = [ EvNamedTemporaryFile "/tmp/metaopt/exp_a1/trial_a1.conf";
        EvNamedTemporaryFile "/tmp/metaopt/exp_a1/results_b2.log";
        EvBuildTo "/tmp/metaopt/exp_a1/trial_a1.conf" 0%nat
          (inr ["--x"; "3"]);
        EvPopen ["/bin/train"; "--x"; "3"]
          (Scenario.child_env "/tmp/metaopt/exp_a1/results_b2.log")
          (Some (OSError ENOENT)) ] ∧
  heap (Scenario.attempt Scenario.succeeds "/bin/other").2 0%nat
    = Scenario.t1 ∧
  ¬ failed_attempts_return_sentinel
      (heap (Scenario.world_with_workdir "/bin/other"))
      (heap (Scenario.attempt Scenario.succeeds "/bin/other").2)
      (Scenario.attempt Scenario.succeeds "/bin/other").1
      (Scenario.attempt_events Scenario.succeeds "/bin/other").
Proof.
  split; [by vm_compute |]. split; [by vm_compute |].
  split; [by vm_compute |].
  intros Hclaim.
  destruct (Hclaim (EvPopen ["/bin/train"; "--x"; "3"]
                      (Scenario.child_env "/tmp/metaopt/exp_a1/results_b2.log")
                      (Some (OSError ENOENT))))
    as (Hr & _); [find_event | done |].
  by vm_compute in Hr.
Qed.

Lemma _consume_sets_results_witness :
  (Scenario.attempt Scenario.succeeds "/bin/train").1 = Ret (Some 0%nat) ∧
  status (heap (Scenario.attempt Scenario.succeeds "/bin/train").2 0%nat)
    = status (heap (Scenario.world_with_workdir "/bin/train") 0%nat) ∧
  id (heap (Scenario.attempt Scenario.succeeds "/bin/train").2 0%nat)
    = id (heap (Scenario.world_with_workdir "/bin/train") 0%nat) ∧
  params (heap (Scenario.attempt Scenario.succeeds "/bin/train").2 0%nat)
    = params (heap (Scenario.world_with_workdir "/bin/train") 0%nat) ∧
  (∀ t', t' ≠ 0%nat →
     heap (Scenario.attempt Scenario.succeeds "/bin/train").2 t'
     = heap (Scenario.world_with_workdir "/bin/train") t') ∧
  ∃ rf records,
    EvParse rf (inr records)
      ∈ Scenario.attempt_events Scenario.succeeds "/bin/train" ∧
    is_temp Scenario.workdir "results_" ".log" rf ∧
    Forall2 result_of records
      (results (heap (Scenario.attempt Scenario.succeeds "/bin/train").2
                  0%nat)).
Proof.
  apply (_consume_sets_results Scenario.succeeds Scenario.consumer 0%nat
           Scenario.workdir (Scenario.world_with_workdir "/bin/train") _ _
           (surjective_pairing _)).
  - find_event.
  - intros path parsed Hin.
    assert (Hparse :
      EvParse path parsed
        ∈ filter (λ e, is_parse e = true)
            (Scenario.attempt_events Scenario.succeeds "/bin/train"))
      by (by apply list_elem_of_filter).
    vm_compute in Hparse. inversion Hparse as [| ? ? ? Hnil]; subst.
    + eexists. split; [reflexivity |].
      repeat constructor; by eexists.
    + inversion Hnil.
Defined.

(** C9 as stated fails: a child that exits 0 and reports an empty list of
    results leaves a returned trial with no results, and with the status it
    had. *)
Lemma returned_trial_not_advanced :
  ¬ returned_trial_is_advanced
      (heap (Scenario.world_with_workdir "/bin/train"))
      (heap (Scenario.attempt Scenario.reports_nothing "/bin/train").2) 0%nat
      (Scenario.attempt Scenario.reports_nothing "/bin/train").1
      (Scenario.attempt_events Scenario.reports_nothing "/bin/train").
Proof.
  intros Hclaim.
  destruct (Hclaim 0%nat "/tmp/metaopt/exp_a1/results_b2.log" [])
    as (Hstatus & _); [by vm_compute | find_event |].
  by apply Hstatus.
Qed.


Lemma consume_one_store_write_witness :
  ∃ ev,
    List.filter is_store_write (Scenario.events Scenario.succeeds "/bin/train")
      = [ev] ∧
    ((∃ rs rf records,
        EvParse rf (inr records)
          ∈ Scenario.events Scenario.succeeds "/bin/train" ∧
        Forall2 result_of records rs ∧
        ev = EvPushCompletedTrial 0%nat
               (set_results rs (heap (Scenario.world "/bin/train") 0%nat))
               None)
     ∨ ev = EvDatabaseWrite "trials"
              (set_status "new" (heap (Scenario.world "/bin/train") 0%nat))
              [("_id", id (heap (Scenario.world "/bin/train") 0%nat))] None).
Proof.
  apply (consume_one_store_write Scenario.succeeds Scenario.consumer 0%nat
           (Scenario.world "/bin/train")
           (Scenario.run Scenario.succeeds "/bin/train").2).
  by vm_compute.
Defined.


(** C1 fails on the code.  The script is not where the consumer looks for
    it: [Popen] raises, and nothing catches what it raises.  The exception
    leaves [consume] once the workspace is removed: nothing is logged, the
    trial keeps the status it had, and nothing is written to the store.  A
    launch that fails at the liveness check is logged and the trial
    recycled; this one is not. *)
Theorem launch_failure_escapes_consume :
  (Scenario.run Scenario.succeeds "/bin/other").1 = Raise (OSError ENOENT) ∧
  Scenario.events Scenario.succeeds "/bin/other"
    = [ EvMkdtemp "/tmp/metaopt/exp_a1";
        EvNamedTemporaryFile "/tmp/metaopt/exp_a1/trial_b2.conf";
        EvNamedTemporaryFile "/tmp/metaopt/exp_a1/results_c3.log";
        EvBuildTo "/tmp/metaopt/exp_a1/trial_b2.conf" 0%nat
          (inr ["--x"; "3"]);
        EvPopen ["/bin/train"; "--x"; "3"]
          (Scenario.child_env "/tmp/metaopt/exp_a1/results_c3.log")
          (Some (OSError ENOENT));
        EvRmtree "/tmp/metaopt/exp_a1" ] ∧
  heap (Scenario.run Scenario.succeeds "/bin/other").2 0%nat = Scenario.t1 ∧
  ¬ launch_failures_are_recycled
      (Scenario.run Scenario.succeeds "/bin/other").1
      (Scenario.events Scenario.succeeds "/bin/other").
Proof.
  split; [by vm_compute |]. split; [by vm_compute |].
  split; [by vm_compute |].
  intros Hclaim.
  destruct (Hclaim (EvPopen ["/bin/train"; "--x"; "3"]
                      (Scenario.child_env "/tmp/metaopt/exp_a1/results_c3.log")
                      (Some (OSError ENOENT))))
    as (Hr & _); [find_event | done |].
  by apply (Hr (OSError ENOENT)).
Qed.

(** ** The scenarios, run *)

(** The script writes the loss and exits 0: the trial is committed with
    that result, and the workspace is gone. *)
Example committed_run :
  (Scenario.run Scenario.succeeds "/bin/train").1 = Ret tt ∧
  results (heap (Scenario.run Scenario.succeeds "/bin/train").2 0%nat)
    = [Scenario.loss] ∧
  fs (Scenario.run Scenario.succeeds "/bin/train").2
    = fs (Scenario.world "/bin/train").
Proof. vm_compute. repeat split. Qed.

(** The script exits 1 and writes nothing: the trial is written back with
    status ['new'] and no results. *)
Example recycled_run :
  (Scenario.run Scenario.exits_1 "/bin/train").1 = Ret tt ∧
  heap (Scenario.run Scenario.exits_1 "/bin/train").2 0%nat
    = set_status "new" Scenario.t1 ∧
  List.filter is_store_write (Scenario.events Scenario.exits_1 "/bin/train")
    = [EvDatabaseWrite "trials" (set_status "new" Scenario.t1)
         [("_id", "t1")] None].
Proof. vm_compute. repeat split. Qed.

(** The script is not there: [Popen] raises, the exception leaves
    [consume], nothing is written to the store, the workspace is gone. *)
Example missing_script_run :
  (Scenario.run Scenario.succeeds "/bin/other").1 = Raise (OSError ENOENT) ∧
  List.filter is_store_write (Scenario.events Scenario.succeeds "/bin/other")
    = [] ∧
  fs (Scenario.run Scenario.succeeds "/bin/other").2
    = fs (Scenario.world "/bin/other").
Proof. vm_compute. repeat split. Qed.

(** The script never exits: [consume] does not return, and the workspace
    stays. *)
Example blocked_run :
  (Scenario.run Scenario.hangs "/bin/train").1 = Hang ∧
  fs (Scenario.run Scenario.hangs "/bin/train").2 !! Scenario.workdir
    = Some Dir.
Proof. vm_compute. repeat split. Qed.

(** ** Further properties of the consumer *)

(** The paths of [consume], each with the path of [_consume] in it, and
    the events written out. *)
Ltac consume_cases H :=
  let evs := fresh "evs" in
  let Ht := fresh "Ht" in
  let Hpath := fresh "Hpath" in
  apply consume_inv in H as (_ & evs & Ht & Hpath & _);
  rewrite (new_events_app _ _ _ Ht) in *; clear Ht;
  inversion Hpath; subst; clear Hpath;
  try match goal with
      | Hp : _consume_path _ _ _ _ _ _ _ _ |- _ =>
          inversion Hp; subst; clear Hp
      end;
  unfold launch_events in *; simpl in *.

(** The launch that fails at the liveness check, for comparison: the
    failure is logged, [consume] returns and the trial is recycled. *)
Example killed_script_run :
  (Scenario.run Scenario.killed "/bin/train").1 = Ret tt ∧
  EvLogError launch_failed_msg (-11)
    ∈ Scenario.events Scenario.killed "/bin/train" ∧
  heap (Scenario.run Scenario.killed "/bin/train").2 0%nat
    = set_status "new" Scenario.t1 ∧
  List.filter is_store_write (Scenario.events Scenario.killed "/bin/train")
    = [EvDatabaseWrite "trials" (set_status "new" Scenario.t1)
         [("_id", "t1")] None].
Proof.
  split; [by vm_compute |]. split; [find_event |].
  split; by vm_compute.
Qed.

(** The script puts a file where its workspace was and exits 1: the
    cleanup raises, the file stays, and the trial is not recycled. *)
Example stuck_cleanup_run :
  (Cases.cleanup_run Cases.replaces_workspace).1
    = Raise (OSError ENOTDIR) ∧
  fs (Cases.cleanup_run Cases.replaces_workspace).2 !! Scenario.workdir
    = Some (File "core") ∧
  heap (Cases.cleanup_run Cases.replaces_workspace).2 0%nat = Scenario.t1 ∧
  List.filter is_store_write
    (Cases.cleanup_events Cases.replaces_workspace) = [].
Proof. vm_compute. repeat split. Qed.

Lemma mkdir_step_inv X p exist_ok w r w' :
  try_except (mkdir X p)
    (λ exc, dir ← isdir p;
            if negb exist_ok || negb dir then raise exc else mret tt)
    w = (r, w') →
  heap w' = heap w ∧ trace w' = trace w ∧
  (exist_ok = true → r = Ret tt → fs w' !! p = Some Dir).
Proof.
  intros H. apply try_except_inv in H as [(exc & w1 & Hc & H) | [Hc _]].
  - apply create_inv in Hc as (Ht & Hh & _ & Hfs). simpl in Hfs.
    unfold isdir, raise, act, mbind, M_bind, mret, M_ret in H.
    destruct (fs w1 !! p) as [[] |] eqn:Hp, exist_ok; simpl in H;
      simplify_eq; done.
  - apply create_inv in Hc as (Ht & Hh & _ & Hfs).
    split; [done |]. split; [done |]. intros _ ->.
    destruct Hfs as [_ ->]. apply lookup_insert_eq.
Qed.

Lemma makedirs_from_frame X fuel p exist_ok w r w' :
  makedirs_from X fuel p exist_ok w = (r, w') →
  heap w' = heap w ∧ trace w' = trace w.
Proof.
  revert p w r w'.
  induction fuel as [| fuel IH]; intros p w r w' H; simpl in H.
  - run_bind H u w1 Hh; unfold mret, M_ret in Hh; simplify_eq.
    by apply mkdir_step_inv in H as (? & ? & _).
  - assert (Hhead : ∀ m : M unit,
              (∀ w0 r0 w1, m w0 = (r0, w1) →
                           heap w1 = heap w0 ∧ trace w1 = trace w0) →
              (m;; try_except (mkdir X p)
                     (λ exc, dir ← isdir p;
                             if negb exist_ok || negb dir
                             then raise exc else mret tt)) w = (r, w') →
              heap w' = heap w ∧ trace w' = trace w).
    { intros m Hm Hrun. run_bind Hrun u w1 Hh; apply Hm in Hh as [Hh Ht].
      - apply mkdir_step_inv in Hrun as (-> & -> & _). done.
      - done.
      - done. }
    destruct (dirname p) as [[| c head] |]; eapply Hhead; try done.
    + intros w0 r0 w1 Hr. unfold mret, M_ret in Hr. by simplify_eq.
    + intros w0 r0 w1 Hr.
      run_bind Hr there w2 He; unfold exists_, act in He; simplify_eq.
      destruct (fs w2 !! String c head).
      * unfold mret, M_ret in Hr. by simplify_eq.
      * apply try_except_inv in Hr as [(exc & w3 & Hc & Hr) | [Hc _]].
        -- apply IH in Hc as [<- <-].
           destruct (is_EEXIST _); unfold raise, act, mret, M_ret in Hr;
             by simplify_eq.
        -- by apply IH in Hc.
    + intros w0 r0 w1 Hr. unfold mret, M_ret in Hr. by simplify_eq.
Qed.

Lemma makedirs_makes_directory X path w w' :
  makedirs X path true w = (Ret tt, w') →
  fs w' !! path = Some Dir ∧ heap w' = heap w ∧
  trace w' = (trace w ++ [EvMakedirs path])%list.
Proof.
  unfold makedirs. intros H.
  run_bind H u w1 Hc. unfold call, act in Hc. simplify_eq.
  pose proof (makedirs_from_frame _ _ _ _ _ _ _ H) as [Hh Ht].
  split; [| by split].
  destruct (String.length path) as [| fuel]; simpl in H;
    run_bind H u w1 Hd;
    by apply (mkdir_step_inv X path true) in H as (_ & _ & ->).
Qed.

(** X1.  The list of results is built from a list of records if and only
    if every record carries the three keys; it then has one result per
    record. *)
Theorem make_results_iff_keys (records : list (gmap string value)) :
  (∃ rs, make_results records = inr rs ∧ length rs = length records)
  ↔ Forall has_result_keys records.
Proof.
  induction records as [| res records IH]; simpl.
  - split; [constructor | by exists []].
  - unfold getitem, has_result_keys, mbind, exn_bind, mret, exn_ret in *.
    split.
    + intros (rs & H & Hlen).
      destruct (res !! "name") as [n |] eqn:Hn; [| done].
      destruct (res !! "type") as [t |] eqn:Ht; [| done].
      destruct (res !! "value") as [v |] eqn:Hv; [| done].
      destruct (make_results records) as [exc | rest] eqn:Hrest; [done |].
      simplify_eq. simpl in Hlen.
      constructor; [by rewrite Hn, Ht, Hv |]. apply IH. exists rest. split; [done | lia].
    + intros Hall. inversion Hall as [| ? ? Hres Hall']; subst.
      destruct Hres as ([n ->] & [t ->] & [v ->]).
      apply IH in Hall' as (rest & -> & Hlen).
      eexists. split; [done |]. simpl. by rewrite Hlen.
Qed.


(** X3.  A child that never exits blocks [consume] in [wait()]: there is
    no timeout.  [consume] does not end, and up to there it has not removed
    the workspace, written nothing to the store and changed no object. *)
Theorem consume_blocks_while_child_runs X self trial w r w' :
  consume X self trial w = (r, w') →
  EvWait None ∈ new_events w w' →
  r = Hang ∧
  heap w' = heap w ∧
  (∀ d, EvRmtree d ∉ new_events w w') ∧
  (∀ e, e ∈ new_events w w' → is_store_write e = false) ∧
  ∃ before, new_events w w' = (before ++ [EvWait None])%list.
Proof.
  intros H Hin. consume_cases H; in_events; simplify_eq.
  split; [done |]. split; [done |].
  split; [intros d' Hd; in_events |].
  split; [intros e He; in_events; by subst |].
  by eexists [_; _; _; _; _; _].
Qed.

(** X4.  A write to the store is the last thing [consume] does, and the
    thing before it is the removal of the workspace: the trial is committed
    or recycled only once the directory is gone, and [consume] ends as the
    write ends. *)
Theorem store_write_follows_cleanup X self trial w r w' :
  consume X self trial w = (r, w') →
  ∀ e, e ∈ new_events w w' → is_store_write e = true →
    r = outcome_of_raised (write_raised e) ∧
    ∃ d before,
      new_events w w' = (EvMkdtemp d :: before ++ [EvRmtree d; e])%list ∧
      (∀ e', e' ∈ before → is_store_write e' = false) ∧
      (∀ d', EvRmtree d' ∉ before).
Proof.
  intros H e Hin Hw. consume_cases H; in_events; simplify_eq.
  all: split; [done |].
  all: match goal with
       | |- ∃ d before, EvMkdtemp ?d0 :: ?l = _ ∧ _ =>
           exists d0, (removelast (removelast l))
       end; simpl.
  all: split; [done |].
  all: split; intros ? Hb; in_events; by subst.
Qed.

(** X5.  The child is launched at most once in a consumption, waited for at
    most once, and its results are parsed at most once: nothing is tried
    again. *)
Theorem consume_tries_once X self trial w r w' :
  consume X self trial w = (r, w') →
  (length (List.filter is_launch (new_events w w')) ≤ 1)%nat ∧
  (length (List.filter is_wait (new_events w w')) ≤ 1)%nat ∧
  (length (List.filter is_parse (new_events w w')) ≤ 1)%nat.
Proof.
  intros H. consume_cases H; repeat split; lia.
Qed.


(** X7.  A child that has exited by the time of the liveness check with a
    status that is not negative is no launch failure, whatever the status:
    [_consume] goes on to [wait()], which answers that status at once. *)
Theorem polled_status_is_waited X self trial d w r w' :
  _consume X self trial d w = (r, w') →
  ∀ rc, EvPoll (Some rc) ∈ new_events w w' → 0 ≤ rc →
    EvWait (Some rc) ∈ new_events w w' ∧ r ≠ Hang ∧
    (rc ≠ 0 → r = Ret None).
Proof.
  intros H rc Hin Hrc.
  apply _consume_inv in H as (_ & evs & Ht & Hp).
  rewrite (new_events_app _ _ _ Ht) in *. clear Ht.
  inversion Hp; subst; unfold launch_events in *; in_events; simplify_eq.
  all: try lia.
  all: match goal with
       | Hb : polled_before (Some _) _ |- _ =>
           destruct Hb as [? | [? ?]]; simplify_eq
       end.
  all: split; [is_event |]; split; done.
Qed.

(** X8.  [launch_process] answers [None] exactly when the liveness check saw
    a negative status, which it logs; it never waits for the child and
    changes no object. *)
Theorem launch_process_none_iff_negative X self results_filename cmd_args
    w r w' :
  launch_process X self results_filename cmd_args w = (r, w') →
  (r = Ret None ↔ ∃ rc, rc < 0 ∧ EvPoll (Some rc) ∈ new_events w w') ∧
  (∀ rc, EvPoll (Some rc) ∈ new_events w w' → rc < 0 →
         EvLogError launch_failed_msg rc ∈ new_events w w') ∧
  (∀ st, EvWait st ∉ new_events w w') ∧
  heap w' = heap w.
Proof.
  intros H. apply launch_process_inv in H as (Hh & _ & H). simpl in H.
  destruct H as [(exc & -> & Ht) | [(rc & Hrc & -> & Ht) | (p & -> & Hp & _ & Ht)]];
    rewrite (new_events_app _ _ _ Ht); clear Ht.
  - split; [split; [done | intros (rc & _ & Hin); in_events] |].
    split; [intros rc Hin; in_events |].
    split; [intros st Hin; in_events | done].
  - split; [split; [intros _; exists rc; split; [done | is_event] | done] |].
    split; [intros rc' Hin _; in_events; simplify_eq; is_event |].
    split; [intros st Hin; in_events | done].
  - split; [split; [done |] |].
    + intros (rc & Hrc & Hin). in_events. simplify_eq.
      match goal with Heq : Some rc = returncode p |- _ =>
        symmetry in Heq; apply Hp in Heq end. lia.
    + split; [| split; [intros st Hin; in_events | done]].
      intros rc Hin Hrc. in_events. simplify_eq.
      match goal with Heq : Some rc = returncode p |- _ =>
        symmetry in Heq; apply Hp in Heq end. lia.
Qed.

Lemma has_sep_app a b : has_sep (a ++ b) = has_sep a || has_sep b.
Proof.
  induction a as [| c a IH]; [done |].
  change (String c a +:+ b) with (String c (a +:+ b)).
  cbn [has_sep]. by rewrite IH, orb_assoc.
Qed.

Lemma has_sep_is_abs p : has_sep p = false → is_abs p = false.
Proof.
  unfold is_abs. destruct p as [| c p]; [done |]. cbn [has_sep String.prefix].
  intros [Hc _]%orb_false_elim.
  destruct (ascii_dec "/" c) as [<- |]; [done | done].
Qed.

(** The name [mktemp] answers is made of a name it drew. *)
Lemma mktemp_name X tries n prefix suffix dir w file w' :
  mktemp X tries n prefix suffix dir w = (Ret file, w') →
  ∃ k, file = path_join dir (prefix ++ candidate_name X k ++ suffix).
Proof.
  revert w. induction tries as [| tries IH]; intros w H; simpl in H.
  - by unfold raise, act in H.
  - run_bind H nm w1 Hnm; unfold next_name, act in Hnm; simplify_eq.
    apply try_except_inv in H as [(exc & w2 & Hc & H) | [Hc Hr]].
    + destruct (is_EEXIST exc); [by eapply IH |].
      by unfold raise, act in H.
    + run_bind Hc u w3 Hcr. unfold mret, M_ret in Hc. simplify_eq.
      by eexists.
Qed.

(** The workspace in the events of [consume] is the directory [mkdtemp]
    answered at the start. *)
Lemma consume_workdir X self trial w r w' :
  consume X self trial w = (r, w') →
  ∀ d, EvMkdtemp d ∈ new_events w w' →
  ∃ w1, mkdtemp X (name (self_experiment self) ++ "_") (self_tmp_dir self) w
        = (Ret d, w1).
Proof.
  intros H d Hin.
  pose proof H as H0. apply consume_inv in H0 as (_ & evs & Ht & Hpath & _).
  rewrite (new_events_app _ _ _ Ht) in Hin.
  assert (Hhead : ∃ rest, evs = EvMkdtemp d :: rest).
  { inversion Hpath as [exc | d0 evs1 h1 Hw Hp | d0 exc evs1 h1 Hw Hp
                       | d0 evs1 h1 raised' Hw Hp | d0 evs1 h1 c pushed Hw Hp];
      subst.
    1: in_events.
    all: pose proof (_consume_path_events _ _ _ _ _ _ _ _ Hp) as (Hmk & _ & _).
    all: apply elem_of_cons in Hin as [[= ->] | Hin]; [by eexists |].
    all: try (apply elem_of_app in Hin as [Hin | Hin]; [| in_events]).
    all: by apply Hmk in Hin. }
  destruct Hhead as [rest ->]. clear Hin Hpath.
  unfold consume, TemporaryDirectory in H. rewrite !bind_run in H.
  destruct (mkdtemp X _ _ w) as [[d0 | exc |] w1] eqn:Hmk.
  3: by apply mkdtemp_inv in Hmk as (_ & _ & ?).
  2: { apply mkdtemp_inv in Hmk as (_ & _ & Ht1). simplify_eq.
       rewrite Ht1 in Ht. rewrite <- (app_nil_r (trace w)) in Ht at 1.
       by apply app_inv_head in Ht. }
  exists w1. do 2 f_equal.
  apply mkdtemp_inv in Hmk as (_ & _ & _ & Ht1).
  assert (Htail : ∃ tail, trace w' = (trace w1 ++ tail)%list).
  { unfold with_exit, act in H.
    destruct (_consume X self trial d0 w1) as [[c | exc |] w2] eqn:Hc;
      apply _consume_inv in Hc as (_ & evs2 & Ht2 & _);
      unfold rmtree, call, raise, act in H; rewrite ?bind_run in H;
      simpl in H; simplify_eq.
    - destruct c as [c |].
      + unfold push_completed_trial, deref, call, assign, act in H.
        rewrite ?bind_run in H. simpl in H.
        destruct (experiment_push X _) as [exc | t'];
          simpl in H; unfold raise, act in H; simplify_eq; simpl;
          rewrite Ht2, <- !app_assoc; by eexists.
      + unfold assign, to_dict, deref, Database_write, call, act in H.
        rewrite ?bind_run in H. simpl in H.
        destruct (database_write X _ _ _) as [exc | []];
          simpl in H; unfold raise, act, mret, M_ret in H; simplify_eq; simpl;
          rewrite Ht2, <- !app_assoc; by eexists.
    - simpl. rewrite Ht2, <- !app_assoc. by eexists.
    - by eexists. }
  destruct Htail as [tail Htail].
  rewrite Ht1, Ht in Htail. by simplify_list_eq.
Qed.

(** X9.  The workspace of a consumption is an entry of the base directory
    of the consumer itself, named after the experiment: its path is the
    base directory, a separator, and a name without separator that starts
    with the name of the experiment.  This is so when the name of the
    experiment holds no separator (the names [tempfile] draws hold none). *)
Theorem workspace_is_entry_of_base_dir X self trial w r w' :
  consume X self trial w = (r, w') →
  has_sep (name (self_experiment self)) = false →
  (∀ k, has_sep (candidate_name X k) = false) →
  ∀ d, EvMkdtemp d ∈ new_events w w' →
    ∃ leaf,
      d = with_sep (self_tmp_dir self) ++ leaf ∧
      has_sep leaf = false ∧
      String.prefix (name (self_experiment self) ++ "_") leaf = true ∧
      inside (self_tmp_dir self) d = true.
Proof.
  intros H Hname Hdrawn d Hin.
  destruct (consume_workdir _ _ _ _ _ _ H d Hin) as [w1 Hmk].
  unfold mkdtemp in Hmk. run_bind Hmk d0 w2 Hm.
  unfold call, act, mret, M_ret in Hmk. rewrite bind_run in Hmk.
  simplify_eq.
  apply mktemp_name in Hm as [k ->].
  set (leaf := (name (self_experiment self) ++ "_")
               ++ candidate_name X k ++ "").
  assert (Hleaf : has_sep leaf = false).
  { unfold leaf. rewrite !has_sep_app, Hname, Hdrawn. done. }
  exists leaf. unfold path_join.
  pose proof (has_sep_is_abs _ Hleaf) as Habs. unfold is_abs in Habs.
  rewrite Habs. split; [done |]. split; [done |].
  split; [apply prefix_app |].
  unfold inside. rewrite prefix_app. apply orb_true_r.
Qed.

(** X10.  When no workspace is made, nothing is done: [consume] raises, no
    event is recorded and no object is changed. *)
Theorem no_workspace_nothing_done X self trial w r w' :
  consume X self trial w = (r, w') →
  (∀ d, EvMkdtemp d ∉ new_events w w') →
  (∃ exc, r = Raise exc) ∧ new_events w w' = [] ∧ heap w' = heap w.
Proof.
  intros H Hno.
  apply consume_inv in H as (_ & evs & Ht & Hpath & _).
  rewrite (new_events_app _ _ _ Ht) in *. clear Ht.
  inversion Hpath; subst; try (by edestruct Hno; apply list_elem_of_here).
  eauto.
Qed.

(** X11.  Under Python 2 the constructor swallows errno 17 of [os.makedirs]:
    it never fails with "File exists", also when what exists at the base
    directory is not a directory. *)
Theorem init_python2_swallows_exists X experiment w errno w' :
  python3 X = false →
  __init__ X experiment w = (Raise (OSError errno), w') →
  errno ≠ 17.
Proof.
  unfold __init__. intros Hpy H. rewrite Hpy in H.
  destruct (space experiment) as [sp |]; [| by unfold raise, act in H].
  run_bind H script w1 Hs.
  2: { unfold getitem, lift, raise, act, mret, M_ret in Hs.
       by destruct (metadata experiment !! "user_script"). }
  run_bind H u w2 Hm; try (by unfold mret, M_ret in H).
  apply try_except_inv in Hm as [(exc & w3 & Hc & Hm) | [Hc Hr]].
  - destruct exc; unfold raise, act in Hm; simplify_eq.
    case_bool_decide; by simplify_eq.
  - by edestruct Hr.
Qed.

(** X12.  Under Python 3, when the constructor returns, the base directory of
    the consumer is a directory of the file system, there before or made
    now; asking for it is all the constructor has done to the world. *)
Theorem init_python3_makes_directory X experiment w self w' :
  python3 X = true →
  __init__ X experiment w = (Ret self, w') →
  fs w' !! self_tmp_dir self = Some Dir ∧
  heap w' = heap w ∧
  new_events w w' = [EvMakedirs (self_tmp_dir self)].
Proof.
  unfold __init__. intros Hpy H. rewrite Hpy in H.
  destruct (space experiment) as [sp |]; [| by unfold raise, act in H].
  run_bind H script w1 Hs.
  unfold getitem, lift, raise, act, mret, M_ret in Hs.
  destruct (metadata experiment !! "user_script"); simplify_eq.
  run_bind H u w2 Hm. unfold mret, M_ret in H. simplify_eq. simpl.
  destruct u. apply makedirs_makes_directory in Hm as (Hfs & Hh & Ht).
  split; [done |]. split; [done |]. by apply new_events_app.
Qed.

(** X13.  An exception of the constructor that is no [OSError] is one of its
    two checks, and leaves the world untouched: [RuntimeError] for an
    experiment without a space, [KeyError] for metadata without
    ['user_script']. *)
Theorem init_checks_touch_nothing X experiment w exc w' :
  __init__ X experiment w = (Raise exc, w') →
  (∀ errno, exc ≠ OSError errno) →
  w' = w ∧
  ((space experiment = None ∧ exc = RuntimeError not_initialized_msg) ∨
   (is_Some (space experiment) ∧
    metadata experiment !! "user_script" = None ∧
    exc = KeyError "user_script")).
Proof.
  unfold __init__. intros H Hexc.
  destruct (space experiment) as [sp |].
  2: { unfold raise, act in H. simplify_eq. split; [done | by left]. }
  run_bind H script w1 Hs.
  - exfalso. unfold getitem, lift, raise, act, mret, M_ret in Hs.
    destruct (metadata experiment !! "user_script"); simplify_eq.
    destruct (python3 X).
    + run_bind H u w2 Hm; try (by unfold mret, M_ret in H).
      apply makedirs_inv in Hm as [errno ->]. by eapply Hexc.
    + run_bind H u w2 Hm; try (by unfold mret, M_ret in H).
      apply try_except_inv in Hm as [(exc' & w3 & Hc & Hm) | [Hc Hr]].
      * apply makedirs_inv in Hc as [errno ->].
        case_bool_decide; unfold raise, act, mret, M_ret in Hm;
          simplify_eq. by eapply Hexc.
      * by edestruct Hr.
  - unfold getitem, lift, raise, act, mret, M_ret in Hs.
    destruct (metadata experiment !! "user_script") eqn:Hkey; simplify_eq.
    split; [done |]. right. by eauto.
Qed.

(** X14.  A trial is committed only after a child that exited with status
    0 and whose results were parsed: what the experiment is handed is the
    object [consume] was handed, with the results made of the records and
    nothing else changed, whether or not the experiment then raises. *)
Theorem commit_only_after_exit_zero X self trial w r w' :
  consume X self trial w = (r, w') →
  ∀ c snapshot raised,
    EvPushCompletedTrial c snapshot raised ∈ new_events w w' →
    c = trial ∧
    EvWait (Some 0) ∈ new_events w w' ∧
    ∃ rf records rs,
      EvParse rf (inr records) ∈ new_events w w' ∧
      Forall2 result_of records rs ∧
      snapshot = set_results rs (heap w trial).
Proof.
  intros H c snapshot raised Hin. consume_cases H; in_events; simplify_eq.
  split; [done |]. split; [is_event |].
  eexists _, _, _. split; [is_event |].
  split; [by apply make_results_spec |]. by rewrite fn_lookup_alter.
Qed.

(** X15.  A trial is recycled only after a child that was seen exited with
    a status other than 0, by the liveness check or by [wait()]; the
    results have then not been parsed, and what is written to the database
    is the object with status ['new'], under the id of the trial. *)
Theorem recycle_only_after_failure X self trial w r w' :
  consume X self trial w = (r, w') →
  ∀ collection document query raised,
    EvDatabaseWrite collection document query raised ∈ new_events w w' →
    (∃ e rc, e ∈ new_events w w' ∧ exit_status e = Some rc ∧ rc ≠ 0) ∧
    (∀ path parsed, EvParse path parsed ∉ new_events w w') ∧
    collection = "trials" ∧
    document = set_status "new" (heap w trial) ∧
    query = [("_id", id (heap w trial))].
Proof.
  intros H collection document query raised Hin.
  consume_cases H; in_events; simplify_eq.
  - split; [eexists (EvPoll (Some rc)), rc; split; [is_event |]; split; [done | lia] |].
    split; [intros path parsed Hp; in_events | done].
  - split; [eexists (EvWait (Some rc)), rc; split; [is_event | done] |].
    split; [intros path parsed Hp; in_events | done].
Qed.

(** X16.  The space builder is called with the trial [_consume] was handed
    and with the config file allocated for this attempt, after both files
    of the workspace have been allocated. *)
Theorem builder_gets_config_file X self trial d w r w' :
  _consume X self trial d w = (r, w') →
  ∀ config t rendered,
    EvBuildTo config t rendered ∈ new_events w w' →
    t = trial ∧ is_temp d "trial_" ".conf" config ∧
    ∃ rf after,
      is_temp d "results_" ".log" rf ∧
      new_events w w'
        = ([EvNamedTemporaryFile config; EvNamedTemporaryFile rf;
            EvBuildTo config t rendered] ++ after)%list.
Proof.
  intros H config t rendered Hin.
  apply _consume_inv in H as (_ & evs & Ht & Hp).
  rewrite (new_events_app _ _ _ Ht) in *. clear Ht.
  inversion Hp; subst; unfold launch_events in *; in_events; simplify_eq.
  all: split; [done |]; split; [done |]; exists rf; eexists.
  all: split; [done |]; simpl; reflexivity.
Qed.

(** X17.  Unless [_consume] returns the trial, it has changed no object:
    on every failing attempt, and when an exception leaves it, the trial is
    as it was handed over, status and results. *)
Theorem _consume_changes_only_returned_trial X self trial d w r w' :
  _consume X self trial d w = (r, w') →
  (∀ t, r ≠ Ret (Some t)) →
  heap w' = heap w.
Proof.
  intros H Hr.
  apply _consume_inv in H as (_ & evs & _ & Hp).
  inversion Hp; subst; try done. by edestruct Hr.
Qed.
(** ** The further properties, at the scenarios *)


Lemma consume_blocks_while_child_runs_witness :
  (Scenario.run Scenario.hangs "/bin/train").1 = Hang ∧
  heap (Scenario.run Scenario.hangs "/bin/train").2
    = heap (Scenario.world "/bin/train") ∧
  (∀ d, EvRmtree d ∉ Scenario.events Scenario.hangs "/bin/train") ∧
  (∀ e, e ∈ Scenario.events Scenario.hangs "/bin/train" →
        is_store_write e = false) ∧
  ∃ before,
    Scenario.events Scenario.hangs "/bin/train"
      = (before ++ [EvWait None])%list.
Proof.
  apply (consume_blocks_while_child_runs Scenario.hangs Scenario.consumer
           0%nat (Scenario.world "/bin/train") _ _ (surjective_pairing _)).
  find_event.
Defined.

Lemma store_write_follows_cleanup_witness :
  (Scenario.run Scenario.succeeds "/bin/train").1
    = outcome_of_raised
        (write_raised
           (EvPushCompletedTrial 0%nat
              (set_results [Scenario.loss] Scenario.t1) None)) ∧
  ∃ d before,
    Scenario.events Scenario.succeeds "/bin/train"
      = (EvMkdtemp d :: before
         ++ [EvRmtree d;
             EvPushCompletedTrial 0%nat
               (set_results [Scenario.loss] Scenario.t1) None])%list ∧
    (∀ e', e' ∈ before → is_store_write e' = false) ∧
    (∀ d', EvRmtree d' ∉ before).
Proof.
  apply (store_write_follows_cleanup Scenario.succeeds Scenario.consumer
           0%nat (Scenario.world "/bin/train") _ _ (surjective_pairing _)
           (EvPushCompletedTrial 0%nat
              (set_results [Scenario.loss] Scenario.t1) None)).
  - find_event.
  - reflexivity.
Defined.

Lemma consume_tries_once_witness :
  (length (List.filter is_launch
             (Scenario.events Scenario.succeeds "/bin/train")) ≤ 1)%nat ∧
  (length (List.filter is_wait
             (Scenario.events Scenario.succeeds "/bin/train")) ≤ 1)%nat ∧
  (length (List.filter is_parse
             (Scenario.events Scenario.succeeds "/bin/train")) ≤ 1)%nat.
Proof.
  apply (consume_tries_once Scenario.succeeds Scenario.consumer 0%nat
           (Scenario.world "/bin/train") _ _ (surjective_pairing _)).
Defined.


Lemma polled_status_is_waited_witness :
  EvWait (Some 3) ∈ Scenario.attempt_events Cases.exited_3_early "/bin/train" ∧
  (Scenario.attempt Cases.exited_3_early "/bin/train").1 ≠ Hang ∧
  (3 ≠ 0 → (Scenario.attempt Cases.exited_3_early "/bin/train").1 = Ret None).
Proof.
  apply (polled_status_is_waited Cases.exited_3_early Scenario.consumer
           0%nat Scenario.workdir (Scenario.world_with_workdir "/bin/train")
           _ _ (surjective_pairing _) 3).
  - find_event.
  - lia.
Defined.

Lemma launch_process_none_iff_negative_witness :
  ((Cases.launch Scenario.killed).1 = Ret None
   ↔ ∃ rc, rc < 0 ∧ EvPoll (Some rc) ∈ Cases.launch_events Scenario.killed) ∧
  (∀ rc, EvPoll (Some rc) ∈ Cases.launch_events Scenario.killed → rc < 0 →
         EvLogError launch_failed_msg rc
           ∈ Cases.launch_events Scenario.killed) ∧
  (∀ st, EvWait st ∉ Cases.launch_events Scenario.killed) ∧
  heap (Cases.launch Scenario.killed).2
    = heap (Scenario.world_with_workdir "/bin/train").
Proof.
  apply (launch_process_none_iff_negative Scenario.killed Scenario.consumer
           "/tmp/metaopt/exp_a1/results_b2.log" ["--x"; "3"]
           (Scenario.world_with_workdir "/bin/train") _ _
           (surjective_pairing _)).
Defined.

Lemma workspace_is_entry_of_base_dir_witness :
  ∃ leaf,
    Scenario.workdir = with_sep (self_tmp_dir Scenario.consumer) ++ leaf ∧
    has_sep leaf = false ∧
    String.prefix (name (self_experiment Scenario.consumer) ++ "_") leaf
      = true ∧
    inside (self_tmp_dir Scenario.consumer) Scenario.workdir = true.
Proof.
  apply (workspace_is_entry_of_base_dir Scenario.succeeds Scenario.consumer
           0%nat (Scenario.world "/bin/train") _ _ (surjective_pairing _)).
  - reflexivity.
  - by intros [| [| k]].
  - find_event.
Defined.

Lemma no_workspace_nothing_done_witness :
  (∃ exc, (Cases.run Scenario.succeeds Cases.world_without_base).1
          = Raise exc) ∧
  Cases.events Scenario.succeeds Cases.world_without_base = [] ∧
  heap (Cases.run Scenario.succeeds Cases.world_without_base).2
    = heap Cases.world_without_base.
Proof.
  apply (no_workspace_nothing_done Scenario.succeeds Scenario.consumer 0%nat
           Cases.world_without_base _ _ (surjective_pairing _)).
  intros d Hin. vm_compute in Hin. inversion Hin.
Defined.

Lemma init_python2_swallows_exists_witness : EACCES ≠ 17.
Proof.
  apply (init_python2_swallows_exists Cases.read_only
           (Scenario.experiment (Some (mkSpace ["x"])))
           Cases.world_without_base EACCES
           (Cases.init Cases.read_only
              (Scenario.experiment (Some (mkSpace ["x"])))
              Cases.world_without_base).2).
  - reflexivity.
  - by vm_compute.
Defined.

Lemma init_python3_makes_directory_witness :
  fs (Cases.init Scenario.succeeds
        (Scenario.experiment (Some (mkSpace ["x"])))
        Cases.world_without_base).2
    !! self_tmp_dir Scenario.consumer = Some Dir ∧
  heap (Cases.init Scenario.succeeds
          (Scenario.experiment (Some (mkSpace ["x"])))
          Cases.world_without_base).2
    = heap Cases.world_without_base ∧
  new_events Cases.world_without_base
    (Cases.init Scenario.succeeds
       (Scenario.experiment (Some (mkSpace ["x"])))
       Cases.world_without_base).2
    = [EvMakedirs (self_tmp_dir Scenario.consumer)].
Proof.
  apply (init_python3_makes_directory Scenario.succeeds
           (Scenario.experiment (Some (mkSpace ["x"])))
           Cases.world_without_base Scenario.consumer).
  - reflexivity.
  - by vm_compute.
Defined.

Lemma init_checks_touch_nothing_witness :
  (Cases.init Scenario.succeeds Cases.scriptless Cases.world_without_base).2
    = Cases.world_without_base ∧
  ((space Cases.scriptless = None ∧
    KeyError "user_script" = RuntimeError not_initialized_msg) ∨
   (is_Some (space Cases.scriptless) ∧
    metadata Cases.scriptless !! "user_script" = None ∧
    KeyError "user_script" = KeyError "user_script")).
Proof.
  apply (init_checks_touch_nothing Scenario.succeeds Cases.scriptless
           Cases.world_without_base (KeyError "user_script")).
  - by vm_compute.
  - done.
Defined.

Lemma commit_only_after_exit_zero_witness :
  0%nat = 0%nat ∧
  EvWait (Some 0)
    ∈ Cases.events Cases.cannot_push (Scenario.world "/bin/train") ∧
  ∃ rf records rs,
    EvParse rf (inr records)
      ∈ Cases.events Cases.cannot_push (Scenario.world "/bin/train") ∧
    Forall2 result_of records rs ∧
    set_results [Scenario.loss] Scenario.t1
      = set_results rs (heap (Scenario.world "/bin/train") 0%nat).
Proof.
  apply (commit_only_after_exit_zero Cases.cannot_push Scenario.consumer
           0%nat (Scenario.world "/bin/train") _ _ (surjective_pairing _)
           0%nat (set_results [Scenario.loss] Scenario.t1)
           (Some (OSError 111))).
  find_event.
Defined.

Lemma recycle_only_after_failure_witness :
  (∃ e rc, e ∈ Scenario.events Scenario.exits_1 "/bin/train" ∧
           exit_status e = Some rc ∧ rc ≠ 0) ∧
  (∀ path parsed,
     EvParse path parsed ∉ Scenario.events Scenario.exits_1 "/bin/train") ∧
  "trials" = "trials" ∧
  set_status "new" Scenario.t1
    = set_status "new" (heap (Scenario.world "/bin/train") 0%nat) ∧
  [("_id", "t1")] = [("_id", id (heap (Scenario.world "/bin/train") 0%nat))].
Proof.
  apply (recycle_only_after_failure Scenario.exits_1 Scenario.consumer 0%nat
           (Scenario.world "/bin/train") _ _ (surjective_pairing _)
           "trials" (set_status "new" Scenario.t1) [("_id", "t1")] None).
  find_event.
Defined.

Lemma builder_gets_config_file_witness :
  0%nat = 0%nat ∧
  is_temp Scenario.workdir "trial_" ".conf"
    "/tmp/metaopt/exp_a1/trial_a1.conf" ∧
  ∃ rf after,
    is_temp Scenario.workdir "results_" ".log" rf ∧
    Scenario.attempt_events Scenario.succeeds "/bin/train"
      = ([EvNamedTemporaryFile "/tmp/metaopt/exp_a1/trial_a1.conf";
          EvNamedTemporaryFile rf;
          EvBuildTo "/tmp/metaopt/exp_a1/trial_a1.conf" 0%nat
            (inr ["--x"; "3"])] ++ after)%list.
Proof.
  apply (builder_gets_config_file Scenario.succeeds Scenario.consumer 0%nat
           Scenario.workdir (Scenario.world_with_workdir "/bin/train") _ _
           (surjective_pairing _)).
  find_event.
Defined.

Lemma _consume_changes_only_returned_trial_witness :
  heap (Scenario.attempt Scenario.exits_1 "/bin/train").2
    = heap (Scenario.world_with_workdir "/bin/train").
Proof.
  apply (_consume_changes_only_returned_trial Scenario.exits_1
           Scenario.consumer 0%nat Scenario.workdir
           (Scenario.world_with_workdir "/bin/train") _ _
           (surjective_pairing _)).
  by vm_compute.
Defined.

(** ** The constructor, run *)

(** A file where the base directory should be: Python 3 raises "File
    exists", Python 2 swallows it and returns a consumer whose base
    directory is no directory. *)
Example file_at_base_dir :
  (Cases.init Scenario.succeeds (Scenario.experiment (Some (mkSpace ["x"])))
     Cases.world_with_file_at_base).1 = Raise (OSError EEXIST) ∧
  (Cases.init Cases.python2 (Scenario.experiment (Some (mkSpace ["x"])))
     Cases.world_with_file_at_base).1 = Ret Scenario.consumer ∧
  fs (Cases.init Cases.python2 (Scenario.experiment (Some (mkSpace ["x"])))
        Cases.world_with_file_at_base).2 !! "/tmp/metaopt" = Some (File "").
Proof. vm_compute. repeat split. Qed.

(** A record without a name after a good one: [KeyError], and the trial
    has none of the results. *)
Example nameless_record_run :
  (Cases.run Cases.forgets_name (Scenario.world "/bin/train")).1
    = Raise (KeyError "name") ∧
  results (heap (Cases.run Cases.forgets_name
                   (Scenario.world "/bin/train")).2 0%nat) = [].
Proof. vm_compute. repeat split. Qed.
